(** * In-game console of OpenRCT2: a shallow embedding and its properties

    The model follows [src/openrct2-ui/interface/InGameConsole.cpp].  The
    console object is a record with one field per data member the file
    touches; every member function is a function on that record.  Code that
    has undefined behaviour on some states (a null text-input session, an
    empty scrollback in [back()], an array index out of range) is modelled in
    the [option] monad and yields [None] there.

    [Draw] is a [const] member that only reads the console and emits draw
    calls; it is not modelled.  [Invalidate] and the calls that stop or
    restart the host's text input change nothing in the console object.

    Conventions.
    - [int32_t] values are integers of [Z]; the arithmetic of the file stays
      far from the 32-bit range, and signed overflow is undefined in C++, so
      no wrap-around is written.  [/] on [int32_t] is [Z.quot] (truncation
      toward zero).
    - [std::string] is [string]; a [utf8] array is a [list] of characters
      whose C-string content ([c_str]) ends at the first terminator.
    - [std::string::npos] is [None] in the result of [find]. *)

From Stdlib Require Import ZArith Lia String Ascii.
From stdpp Require Import base tactics option list strings.
From Equations Require Import Equations.
From Equations.Prop Require Import Logic.

Local Open Scope Z_scope.

(** Decidability of the comparisons the source writes with [>] and [>=]. *)
#[global] Instance Z_gt_decision : RelDecision Z.gt := Z_gt_dec.
#[global] Instance Z_ge_decision : RelDecision Z.ge := Z_ge_dec.
#[global] Instance nat_gt_decision : RelDecision gt := gt_dec.

(** ** Characters, buffers and C strings *)

Definition utf8 : Type := ascii.

Definition NUL : utf8 := "000"%char.

Definition newline : utf8 := "010"%char.

(** The C-string content of a buffer: the bytes before the first terminator. *)
Fixpoint c_str (buf : list utf8) : string :=
  match buf with
  | [] => EmptyString
  | b :: rest => if Ascii.eqb b NUL then EmptyString else String b (c_str rest)
  end.

Definition strlen (buf : list utf8) : nat := String.length (c_str buf).

(** [std::memcpy(dst, src, n)] on two arrays that hold at least [n] bytes. *)
Definition memcpy (dst src : list utf8) (n : nat) : list utf8 :=
  take n src ++ drop n dst.

(** The bytes of a string literal placed in an array of [n] bytes (zero
    filled), as [utf8 buf[n] = "..."] does. *)
Definition buffer_of (n : nat) (s : string) : list utf8 :=
  take n (list_ascii_of_string s ++ replicate n NUL).

(** Reading and writing [a[i]] for an [int32_t] index; out of range is
    undefined behaviour. *)
Definition array_get {A} (a : list A) (i : Z) : option A :=
  if decide (0 ≤ i) then a !! Z.to_nat i else None.

Definition array_set {A} (a : list A) (i : Z) (v : A) : option (list A) :=
  if decide (0 ≤ i < Z.of_nat (length a)) then Some (<[Z.to_nat i := v]> a) else None.

(** ** [std::string] operations used by [WriteLine] *)

(** [s.find(ch, pos)]: the first index [>= pos] holding [ch]; [None] is
    [npos]. *)
Fixpoint find (s : string) (ch : ascii) (pos : nat) : option nat :=
  match s with
  | EmptyString => None
  | String c rest =>
      match pos with
      | O => if Ascii.eqb c ch then Some O else S <$> find rest ch O
      | S pos' => S <$> find rest ch pos'
      end
  end.

(** [s.substr(pos, count)] for [pos <= s.size()]: at most [count] characters
    from [pos] on.  With [splitPos == npos] the count [npos - stringOffset]
    exceeds what is left of the string, so the rest of the string is taken:
    that is the [None] case. *)
Definition substr (s : string) (pos : nat) (splitPos : option nat) : string :=
  match splitPos with
  | Some p => substring pos (p - pos) s
  | None => substring pos (String.length s - pos) s
  end.

(** ** Collaborator types *)

Inductive FontStyle := FontStyleSmall | FontStyleMedium.

(** Modelled from the spec: the [FormatToken] enumeration is declared outside
    this file, and the specification only tells the default colour tag from
    the others.  [ColourWindow2] is the default, the token [WriteLine] tests
    against; the other constructors stand for the colour tokens that are not
    the default. *)
Inductive FormatToken :=
  | ColourWindow1 | ColourWindow2 | ColourWindow3
  | ColourBlack | ColourWhite | ColourRed | ColourGreen | ColourYellow.

#[global] Instance FormatToken_eq_dec : EqDecision FormatToken.
Proof. solve_decision. Defined.

Inductive ConsoleInput :=
  | ConsoleInputNone
  | LineClear
  | LineExecute
  | HistoryPrevious
  | HistoryNext
  | ScrollPrevious
  | ScrollNext.

Record ScreenCoordsXY := { x : Z; y : Z }.

#[global] Instance ScreenCoordsXY_eq_dec : EqDecision ScreenCoordsXY.
Proof. solve_decision. Defined.

(** The fields of the host's text-input session that the console writes. *)
Record TextInputSession := {
  Size : nat;
  Length : nat;
  SelectionStart : nat
}.

(** ** The console object *)

Record InGameConsole := {
  _isOpen : bool;
  _consoleTopLeft : ScreenCoordsXY;
  _consoleBottomRight : ScreenCoordsXY;
  _lastMainViewport : ScreenCoordsXY;
  _consoleLines : list string;
  _consoleCurrentLine : list utf8;
  _consoleCaretTicks : Z;
  _consoleScrollPos : Z;
  _consoleTextInputSession : option TextInputSession;
  _consoleHistory : list (list utf8);
  _consoleHistoryIndex : Z;
  _consoleHistoryCount : Z;
  _selectionStart : nat;
  _caretScreenPosX : Z
}.

(** Constants of the class declaration ([InGameConsole.h]), which is not
    part of this file: they are parameters of the model. *)
Class ConsoleLimits := {
  CONSOLE_MAX_LINES : nat;
  CONSOLE_HISTORY_SIZE : nat;
  CONSOLE_INPUT_SIZE : nat
}.

(** What the console calls outside this file: the configuration, the font
    metrics, the text-input system and the command interpreter of the base
    class, which may call back into the console.  A font has a positive line
    height; [GetNumVisibleLines] divides by it. *)
Class Host := {
  OPENRCT2_BANNER : string;
  ConsoleSmallFont : bool;
  FontGetLineHeight : FontStyle → Z;
  FontGetLineHeight_pos : ∀ style, 0 < FontGetLineHeight style;
  GfxGetStringWidthNoFormatting : string → FontStyle → Z;
  UTF8Length : list utf8 → nat;
  ContextStartTextInput : list utf8 → nat → TextInputSession;
  Execute : string → InGameConsole → InGameConsole
}.

(** Field updates ([c.field = v]). *)

Definition set_isOpen (v : bool) (c : InGameConsole) : InGameConsole :=
  {| _isOpen := v; _consoleTopLeft := _consoleTopLeft c;
     _consoleBottomRight := _consoleBottomRight c; _lastMainViewport := _lastMainViewport c;
     _consoleLines := _consoleLines c; _consoleCurrentLine := _consoleCurrentLine c;
     _consoleCaretTicks := _consoleCaretTicks c; _consoleScrollPos := _consoleScrollPos c;
     _consoleTextInputSession := _consoleTextInputSession c;
     _consoleHistory := _consoleHistory c; _consoleHistoryIndex := _consoleHistoryIndex c;
     _consoleHistoryCount := _consoleHistoryCount c; _selectionStart := _selectionStart c;
     _caretScreenPosX := _caretScreenPosX c |}.

Definition set_consoleTopLeft (v : ScreenCoordsXY) (c : InGameConsole) : InGameConsole :=
  {| _isOpen := _isOpen c; _consoleTopLeft := v;
     _consoleBottomRight := _consoleBottomRight c; _lastMainViewport := _lastMainViewport c;
     _consoleLines := _consoleLines c; _consoleCurrentLine := _consoleCurrentLine c;
     _consoleCaretTicks := _consoleCaretTicks c; _consoleScrollPos := _consoleScrollPos c;
     _consoleTextInputSession := _consoleTextInputSession c;
     _consoleHistory := _consoleHistory c; _consoleHistoryIndex := _consoleHistoryIndex c;
     _consoleHistoryCount := _consoleHistoryCount c; _selectionStart := _selectionStart c;
     _caretScreenPosX := _caretScreenPosX c |}.

Definition set_consoleBottomRight (v : ScreenCoordsXY) (c : InGameConsole) : InGameConsole :=
  {| _isOpen := _isOpen c; _consoleTopLeft := _consoleTopLeft c;
     _consoleBottomRight := v; _lastMainViewport := _lastMainViewport c;
     _consoleLines := _consoleLines c; _consoleCurrentLine := _consoleCurrentLine c;
     _consoleCaretTicks := _consoleCaretTicks c; _consoleScrollPos := _consoleScrollPos c;
     _consoleTextInputSession := _consoleTextInputSession c;
     _consoleHistory := _consoleHistory c; _consoleHistoryIndex := _consoleHistoryIndex c;
     _consoleHistoryCount := _consoleHistoryCount c; _selectionStart := _selectionStart c;
     _caretScreenPosX := _caretScreenPosX c |}.

Definition set_lastMainViewport (v : ScreenCoordsXY) (c : InGameConsole) : InGameConsole :=
  {| _isOpen := _isOpen c; _consoleTopLeft := _consoleTopLeft c;
     _consoleBottomRight := _consoleBottomRight c; _lastMainViewport := v;
     _consoleLines := _consoleLines c; _consoleCurrentLine := _consoleCurrentLine c;
     _consoleCaretTicks := _consoleCaretTicks c; _consoleScrollPos := _consoleScrollPos c;
     _consoleTextInputSession := _consoleTextInputSession c;
     _consoleHistory := _consoleHistory c; _consoleHistoryIndex := _consoleHistoryIndex c;
     _consoleHistoryCount := _consoleHistoryCount c; _selectionStart := _selectionStart c;
     _caretScreenPosX := _caretScreenPosX c |}.

Definition set_consoleLines (v : list string) (c : InGameConsole) : InGameConsole :=
  {| _isOpen := _isOpen c; _consoleTopLeft := _consoleTopLeft c;
     _consoleBottomRight := _consoleBottomRight c; _lastMainViewport := _lastMainViewport c;
     _consoleLines := v; _consoleCurrentLine := _consoleCurrentLine c;
     _consoleCaretTicks := _consoleCaretTicks c; _consoleScrollPos := _consoleScrollPos c;
     _consoleTextInputSession := _consoleTextInputSession c;
     _consoleHistory := _consoleHistory c; _consoleHistoryIndex := _consoleHistoryIndex c;
     _consoleHistoryCount := _consoleHistoryCount c; _selectionStart := _selectionStart c;
     _caretScreenPosX := _caretScreenPosX c |}.

Definition set_consoleCurrentLine (v : list utf8) (c : InGameConsole) : InGameConsole :=
  {| _isOpen := _isOpen c; _consoleTopLeft := _consoleTopLeft c;
     _consoleBottomRight := _consoleBottomRight c; _lastMainViewport := _lastMainViewport c;
     _consoleLines := _consoleLines c; _consoleCurrentLine := v;
     _consoleCaretTicks := _consoleCaretTicks c; _consoleScrollPos := _consoleScrollPos c;
     _consoleTextInputSession := _consoleTextInputSession c;
     _consoleHistory := _consoleHistory c; _consoleHistoryIndex := _consoleHistoryIndex c;
     _consoleHistoryCount := _consoleHistoryCount c; _selectionStart := _selectionStart c;
     _caretScreenPosX := _caretScreenPosX c |}.

Definition set_consoleCaretTicks (v : Z) (c : InGameConsole) : InGameConsole :=
  {| _isOpen := _isOpen c; _consoleTopLeft := _consoleTopLeft c;
     _consoleBottomRight := _consoleBottomRight c; _lastMainViewport := _lastMainViewport c;
     _consoleLines := _consoleLines c; _consoleCurrentLine := _consoleCurrentLine c;
     _consoleCaretTicks := v; _consoleScrollPos := _consoleScrollPos c;
     _consoleTextInputSession := _consoleTextInputSession c;
     _consoleHistory := _consoleHistory c; _consoleHistoryIndex := _consoleHistoryIndex c;
     _consoleHistoryCount := _consoleHistoryCount c; _selectionStart := _selectionStart c;
     _caretScreenPosX := _caretScreenPosX c |}.

Definition set_consoleScrollPos (v : Z) (c : InGameConsole) : InGameConsole :=
  {| _isOpen := _isOpen c; _consoleTopLeft := _consoleTopLeft c;
     _consoleBottomRight := _consoleBottomRight c; _lastMainViewport := _lastMainViewport c;
     _consoleLines := _consoleLines c; _consoleCurrentLine := _consoleCurrentLine c;
     _consoleCaretTicks := _consoleCaretTicks c; _consoleScrollPos := v;
     _consoleTextInputSession := _consoleTextInputSession c;
     _consoleHistory := _consoleHistory c; _consoleHistoryIndex := _consoleHistoryIndex c;
     _consoleHistoryCount := _consoleHistoryCount c; _selectionStart := _selectionStart c;
     _caretScreenPosX := _caretScreenPosX c |}.

Definition set_consoleTextInputSession (v : option TextInputSession) (c : InGameConsole)
  : InGameConsole :=
  {| _isOpen := _isOpen c; _consoleTopLeft := _consoleTopLeft c;
     _consoleBottomRight := _consoleBottomRight c; _lastMainViewport := _lastMainViewport c;
     _consoleLines := _consoleLines c; _consoleCurrentLine := _consoleCurrentLine c;
     _consoleCaretTicks := _consoleCaretTicks c; _consoleScrollPos := _consoleScrollPos c;
     _consoleTextInputSession := v;
     _consoleHistory := _consoleHistory c; _consoleHistoryIndex := _consoleHistoryIndex c;
     _consoleHistoryCount := _consoleHistoryCount c; _selectionStart := _selectionStart c;
     _caretScreenPosX := _caretScreenPosX c |}.

Definition set_consoleHistory (v : list (list utf8)) (c : InGameConsole) : InGameConsole :=
  {| _isOpen := _isOpen c; _consoleTopLeft := _consoleTopLeft c;
     _consoleBottomRight := _consoleBottomRight c; _lastMainViewport := _lastMainViewport c;
     _consoleLines := _consoleLines c; _consoleCurrentLine := _consoleCurrentLine c;
     _consoleCaretTicks := _consoleCaretTicks c; _consoleScrollPos := _consoleScrollPos c;
     _consoleTextInputSession := _consoleTextInputSession c;
     _consoleHistory := v; _consoleHistoryIndex := _consoleHistoryIndex c;
     _consoleHistoryCount := _consoleHistoryCount c; _selectionStart := _selectionStart c;
     _caretScreenPosX := _caretScreenPosX c |}.

Definition set_consoleHistoryIndex (v : Z) (c : InGameConsole) : InGameConsole :=
  {| _isOpen := _isOpen c; _consoleTopLeft := _consoleTopLeft c;
     _consoleBottomRight := _consoleBottomRight c; _lastMainViewport := _lastMainViewport c;
     _consoleLines := _consoleLines c; _consoleCurrentLine := _consoleCurrentLine c;
     _consoleCaretTicks := _consoleCaretTicks c; _consoleScrollPos := _consoleScrollPos c;
     _consoleTextInputSession := _consoleTextInputSession c;
     _consoleHistory := _consoleHistory c; _consoleHistoryIndex := v;
     _consoleHistoryCount := _consoleHistoryCount c; _selectionStart := _selectionStart c;
     _caretScreenPosX := _caretScreenPosX c |}.

Definition set_consoleHistoryCount (v : Z) (c : InGameConsole) : InGameConsole :=
  {| _isOpen := _isOpen c; _consoleTopLeft := _consoleTopLeft c;
     _consoleBottomRight := _consoleBottomRight c; _lastMainViewport := _lastMainViewport c;
     _consoleLines := _consoleLines c; _consoleCurrentLine := _consoleCurrentLine c;
     _consoleCaretTicks := _consoleCaretTicks c; _consoleScrollPos := _consoleScrollPos c;
     _consoleTextInputSession := _consoleTextInputSession c;
     _consoleHistory := _consoleHistory c; _consoleHistoryIndex := _consoleHistoryIndex c;
     _consoleHistoryCount := v; _selectionStart := _selectionStart c;
     _caretScreenPosX := _caretScreenPosX c |}.

Definition set_selectionStart (v : nat) (c : InGameConsole) : InGameConsole :=
  {| _isOpen := _isOpen c; _consoleTopLeft := _consoleTopLeft c;
     _consoleBottomRight := _consoleBottomRight c; _lastMainViewport := _lastMainViewport c;
     _consoleLines := _consoleLines c; _consoleCurrentLine := _consoleCurrentLine c;
     _consoleCaretTicks := _consoleCaretTicks c; _consoleScrollPos := _consoleScrollPos c;
     _consoleTextInputSession := _consoleTextInputSession c;
     _consoleHistory := _consoleHistory c; _consoleHistoryIndex := _consoleHistoryIndex c;
     _consoleHistoryCount := _consoleHistoryCount c; _selectionStart := v;
     _caretScreenPosX := _caretScreenPosX c |}.

Definition set_caretScreenPosX (v : Z) (c : InGameConsole) : InGameConsole :=
  {| _isOpen := _isOpen c; _consoleTopLeft := _consoleTopLeft c;
     _consoleBottomRight := _consoleBottomRight c; _lastMainViewport := _lastMainViewport c;
     _consoleLines := _consoleLines c; _consoleCurrentLine := _consoleCurrentLine c;
     _consoleCaretTicks := _consoleCaretTicks c; _consoleScrollPos := _consoleScrollPos c;
     _consoleTextInputSession := _consoleTextInputSession c;
     _consoleHistory := _consoleHistory c; _consoleHistoryIndex := _consoleHistoryIndex c;
     _consoleHistoryCount := _consoleHistoryCount c; _selectionStart := _selectionStart c;
     _caretScreenPosX := v |}.

(** ** Member functions *)

Section Members.
Context `{ConsoleLimits} `{Host}.

Definition InGameConsoleGetFontStyle : FontStyle :=
  if ConsoleSmallFont then FontStyleSmall else FontStyleMedium.

Definition InGameConsoleGetLineHeight : Z :=
  FontGetLineHeight InGameConsoleGetFontStyle.

(** Calculates the amount of visible lines, based on the console size,
    excluding the input line. *)
Definition GetNumVisibleLines (c : InGameConsole) : Z :=
  let lineHeight := InGameConsoleGetLineHeight in
  let consoleHeight := y (_consoleBottomRight c) - y (_consoleTopLeft c) in
  if decide (consoleHeight = 0) then 0
  else
    let drawableHeight := consoleHeight - 2 * lineHeight - 4 in
    Z.quot drawableHeight lineHeight.

Definition numLines (c : InGameConsole) : Z := Z.of_nat (length (_consoleLines c)).

Definition ScrollToEnd (c : InGameConsole) : InGameConsole :=
  let maxLines := GetNumVisibleLines c in
  if decide (maxLines = 0) then set_consoleScrollPos 0 c
  else set_consoleScrollPos (Z.max 0 (numLines c - maxLines)) c.

(** [std::clamp<int32_t>(v, lo, hi)]. *)
Definition clamp (v lo hi : Z) : Z :=
  if decide (v < lo) then lo else if decide (hi < v) then hi else v.

(** The value an [int32_t] holds after an arithmetic operation whose exact
    result is [v]: [v] itself when it fits, and [v] modulo 2^32 in the signed
    range when it does not (the builds wrap around). *)
Definition wrap_int32 (v : Z) : Z := (v + 2 ^ 31) `mod` 2 ^ 32 - 2 ^ 31.

Definition Scroll (linesToScroll : Z) (c : InGameConsole) : InGameConsole :=
  let maxVisibleLines := GetNumVisibleLines c in
  if decide (numLines c > maxVisibleLines) then
    let maxScrollValue := numLines c - maxVisibleLines in
    set_consoleScrollPos
      (clamp (wrap_int32 (_consoleScrollPos c - linesToScroll)) 0 maxScrollValue) c
  else c.

(** Every call in the file is [RefreshCaret()]: [position] is the default
    argument of the declaration, 0 (the caret is reset). *)
Definition RefreshCaret (position : nat) (c : InGameConsole) : InGameConsole :=
  let c := set_consoleCaretTicks 0 c in
  let c := set_selectionStart position c in
  let tempString := take (_selectionStart c) (_consoleCurrentLine c) in
  set_caretScreenPosX
    (GfxGetStringWidthNoFormatting (c_str tempString) InGameConsoleGetFontStyle) c.

(** When the console is open the host's capture is restarted on the same
    buffer; the session pointer that [ContextStartTextInput] returns is
    discarded, so no field of the console changes in that branch. *)
Definition ClearInput (c : InGameConsole) : InGameConsole :=
  let c := set_consoleCurrentLine (<[0%nat := NUL]> (_consoleCurrentLine c)) c in
  if _isOpen c then c else c.

Definition ClearLine (c : InGameConsole) : InGameConsole :=
  RefreshCaret 0 (set_consoleCurrentLine (<[0%nat := NUL]> (_consoleCurrentLine c)) c).

Definition Clear (c : InGameConsole) : InGameConsole :=
  ScrollToEnd (set_consoleLines [] c).

Definition Open (c : InGameConsole) : InGameConsole :=
  let c := set_isOpen true c in
  let c := ScrollToEnd c in
  let c := RefreshCaret 0 c in
  set_consoleTextInputSession
    (Some (ContextStartTextInput (_consoleCurrentLine c) (length (_consoleCurrentLine c)))) c.

Definition Close (c : InGameConsole) : InGameConsole :=
  set_isOpen false (set_consoleTextInputSession None c).

Definition Hide (c : InGameConsole) : InGameConsole := Close c.

Definition Toggle (c : InGameConsole) : InGameConsole :=
  if _isOpen c then Close c else Open c.

(** [Update]: [width] is [ContextGetWidth()] and [viewPos] the position of
    the main viewport, if there is one, at this tick. *)
Definition Update (width : Z) (viewPos : option ScreenCoordsXY) (c : InGameConsole)
  : InGameConsole :=
  let c := set_consoleTopLeft {| x := 0; y := 0 |} c in
  let c := set_consoleBottomRight {| x := width; y := 322 |} c in
  let c :=
    if _isOpen c then
      match viewPos with
      | Some pos => if decide (_lastMainViewport c ≠ pos) then set_lastMainViewport pos c else c
      | None => c
      end
    else c in
  set_consoleCaretTicks (Z.rem (_consoleCaretTicks c + 1) 30) c.

(** The body of the [while] loop of [WriteLine], entered with
    [stringOffset]; it runs again while [splitPos != npos]. *)
Equations? WriteLine_loop (input colourCodepoint : string) (stringOffset : nat)
    (lines : list string) : list string
    by wf (String.length input - stringOffset)%nat lt :=
  WriteLine_loop input colourCodepoint stringOffset lines with
    inspect (find input newline stringOffset) := {
    | exist _ (Some splitPos) Hfind =>
        WriteLine_loop input colourCodepoint (splitPos + 1)
          (lines ++ [colourCodepoint +:+ substr input stringOffset (Some splitPos)]);
    | exist _ None _ =>
        lines ++ [colourCodepoint +:+ substr input stringOffset None] }.
Proof.
  clear WriteLine_loop.
  assert (Hbound : ∀ s pos q, find s newline pos = Some q →
                     (pos ≤ q ∧ q < String.length s)%nat).
  { induction s as [|ch s IH]; intros pos q Hq; simpl in *; [discriminate|].
    destruct pos as [|pos].
    - destruct (Ascii.eqb ch newline).
      + injection Hq as <-. lia.
      + destruct (find s newline 0) as [r|] eqn:Hr; simpl in Hq; [|discriminate].
        injection Hq as <-. apply IH in Hr. lia.
    - destruct (find s newline pos) as [r|] eqn:Hr; simpl in Hq; [|discriminate].
      injection Hq as <-. apply IH in Hr. lia. }
  apply Hbound in Hfind. lia.
Qed.

Definition WriteLine (input : string) (colourFormat : FormatToken) (c : InGameConsole)
  : InGameConsole :=
  (* Include text colour format only for special cases
     The draw function handles the default text colour differently *)
  let colourCodepoint :=
    if decide (colourFormat ≠ ColourWindow2) then "{WINDOW_COLOUR_2}"%string
    else EmptyString in
  let lines := WriteLine_loop input colourCodepoint 0 (_consoleLines c) in
  if decide (length lines > CONSOLE_MAX_LINES)%nat then
    let linesToErase := (length lines - CONSOLE_MAX_LINES)%nat in
    set_consoleLines (drop linesToErase lines) c
  else set_consoleLines lines c.

(** Modelled from the spec: the one-argument [InteractiveConsole::WriteLine]
    of the base class is not in this file; it writes with the default
    colour. *)
Definition InteractiveConsole_WriteLine (s : string) (c : InGameConsole) : InGameConsole :=
  WriteLine s ColourWindow2 c.

Definition WritePrompt (c : InGameConsole) : InGameConsole :=
  InteractiveConsole_WriteLine "> " c.

(** The [for] loop of [HistoryAdd]: [n] iterations left, at index [i]. *)
Fixpoint HistoryAdd_shift (n : nat) (i : Z) (history : list (list utf8))
  : option (list (list utf8)) :=
  match n with
  | O => Some history
  | S n' =>
      src ← array_get history (i + 1);
      dst ← array_get history i;
      history' ← array_set history i (memcpy dst src CONSOLE_INPUT_SIZE);
      HistoryAdd_shift n' (i + 1) history'
  end.

Definition HistoryAdd (src : list utf8) (c : InGameConsole) : option InGameConsole :=
  c ← (if decide (_consoleHistoryCount c >= Z.of_nat CONSOLE_HISTORY_SIZE) then
         history ← HistoryAdd_shift (Z.to_nat (_consoleHistoryCount c - 1)) 0
                     (_consoleHistory c);
         Some (set_consoleHistoryCount (_consoleHistoryCount c - 1)
                 (set_consoleHistory history c))
       else Some c);
  dst ← array_get (_consoleHistory c) (_consoleHistoryCount c);
  history ← array_set (_consoleHistory c) (_consoleHistoryCount c)
              (memcpy dst src CONSOLE_INPUT_SIZE);
  let c := set_consoleHistoryCount (_consoleHistoryCount c + 1)
             (set_consoleHistory history c) in
  Some (set_consoleHistoryIndex (_consoleHistoryCount c) c).

(** [_consoleLines.back().append(text)]; [back()] of an empty container is
    undefined. *)
Definition back_append (text : string) (c : InGameConsole) : option InGameConsole :=
  match reverse (_consoleLines c) with
  | [] => None
  | lastLine :: before =>
      Some (set_consoleLines (reverse before ++ [lastLine +:+ text]) c)
  end.

(** The three stores through [_consoleTextInputSession]; the session's
    buffer is [_consoleCurrentLine].  A null session is undefined. *)
Definition update_session (c : InGameConsole) : option InGameConsole :=
  session ← _consoleTextInputSession c;
  Some (set_consoleTextInputSession
          (Some {| Size := strlen (_consoleCurrentLine c);
                   Length := UTF8Length (_consoleCurrentLine c);
                   SelectionStart := strlen (_consoleCurrentLine c) |}) c).

Definition Input (input : ConsoleInput) (c : InGameConsole) : option InGameConsole :=
  match input with
  | LineClear => Some (RefreshCaret 0 (ClearInput c))
  | LineExecute =>
      c ← (if decide (hd NUL (_consoleCurrentLine c) ≠ NUL) then
             c ← HistoryAdd (_consoleCurrentLine c) c;
             (* Append text we are executing to prompt line *)
             c ← back_append (c_str (_consoleCurrentLine c)) c;
             let c := Execute (c_str (_consoleCurrentLine c)) c in
             let c := WritePrompt c in
             let c := ClearInput c in
             Some (RefreshCaret 0 c)
           else Some c);
      Some (ScrollToEnd c)
  | HistoryPrevious =>
      c ← (if decide (_consoleHistoryIndex c > 0) then
             let c := set_consoleHistoryIndex (_consoleHistoryIndex c - 1) c in
             entry ← array_get (_consoleHistory c) (_consoleHistoryIndex c);
             Some (set_consoleCurrentLine
                     (memcpy (_consoleCurrentLine c) entry CONSOLE_INPUT_SIZE) c)
           else Some c);
      update_session c
  | HistoryNext =>
      if decide (_consoleHistoryIndex c < _consoleHistoryCount c - 1) then
        let c := set_consoleHistoryIndex (_consoleHistoryIndex c + 1) c in
        entry ← array_get (_consoleHistory c) (_consoleHistoryIndex c);
        update_session
          (set_consoleCurrentLine
             (memcpy (_consoleCurrentLine c) entry CONSOLE_INPUT_SIZE) c)
      else
        Some (ClearInput (set_consoleHistoryIndex (_consoleHistoryCount c) c))
  | ScrollPrevious =>
      let scrollAmt := GetNumVisibleLines c - 1 in
      Some (Scroll scrollAmt c)
  | ScrollNext =>
      let scrollAmt := GetNumVisibleLines c - 1 in
      Some (Scroll (- scrollAmt) c)
  | ConsoleInputNone => Some c
  end.

(** The constructor, run on the object as its member initialisers leave
    it. *)
Definition InGameConsole_ctor (c : InGameConsole) : InGameConsole :=
  let c := InteractiveConsole_WriteLine OPENRCT2_BANNER c in
  let c := InteractiveConsole_WriteLine
             "Type 'help' for a list of available commands. Type 'hide' to hide the console." c in
  let c := InteractiveConsole_WriteLine "" c in
  WritePrompt c.

End Members.

(** ** Concrete instances

    Values for the parameters of the model, used to run it on examples. *)

Definition limits (maxLines historySize inputSize : nat) : ConsoleLimits :=
  {| CONSOLE_MAX_LINES := maxLines;
     CONSOLE_HISTORY_SIZE := historySize;
     CONSOLE_INPUT_SIZE := inputSize |}.

(** Limits of the size the game is built with: 300 lines, 64 commands of
    256 bytes. *)
Definition gameLimits : ConsoleLimits := limits 300 64 256.

(** A host whose fonts have the given line height and whose interpreter
    answers every command with one line of output. *)
Definition sampleHost (L : ConsoleLimits) (lineHeight : positive) : Host :=
  {| OPENRCT2_BANNER := "OpenRCT2";
     ConsoleSmallFont := false;
     FontGetLineHeight := λ _, Z.pos lineHeight;
     FontGetLineHeight_pos := λ _, Pos2Z.is_pos lineHeight;
     GfxGetStringWidthNoFormatting := λ s _, 6 * Z.of_nat (String.length s);
     UTF8Length := strlen;
     ContextStartTextInput := λ buf _,
       {| Size := strlen buf; Length := strlen buf; SelectionStart := strlen buf |};
     Execute := λ s c, WriteLine ("ran " +:+ s) ColourWindow2 c |}.

(** A host whose interpreter carries out the command [hide], which the
    banner of the constructor advertises, by calling [Hide]. *)
Definition hidingHost (L : ConsoleLimits) (lineHeight : positive) : Host :=
  {| OPENRCT2_BANNER := "OpenRCT2";
     ConsoleSmallFont := false;
     FontGetLineHeight := λ _, Z.pos lineHeight;
     FontGetLineHeight_pos := λ _, Pos2Z.is_pos lineHeight;
     GfxGetStringWidthNoFormatting := λ s _, 6 * Z.of_nat (String.length s);
     UTF8Length := strlen;
     ContextStartTextInput := λ buf _,
       {| Size := strlen buf; Length := strlen buf; SelectionStart := strlen buf |};
     Execute := λ s c,
       if decide (s = "hide"%string) then Hide c
       else WriteLine ("ran " +:+ s) ColourWindow2 c |}.

(** Modelled from the spec: the member initialisers of the class live in its
    declaration, outside this file; every member starts zeroed or empty. *)
Definition InGameConsole_init `{ConsoleLimits} : InGameConsole :=
  {| _isOpen := false;
     _consoleTopLeft := {| x := 0; y := 0 |};
     _consoleBottomRight := {| x := 0; y := 0 |};
     _lastMainViewport := {| x := 0; y := 0 |};
     _consoleLines := [];
     _consoleCurrentLine := replicate CONSOLE_INPUT_SIZE NUL;
     _consoleCaretTicks := 0;
     _consoleScrollPos := 0;
     _consoleTextInputSession := None;
     _consoleHistory := replicate CONSOLE_HISTORY_SIZE (replicate CONSOLE_INPUT_SIZE NUL);
     _consoleHistoryIndex := 0;
     _consoleHistoryCount := 0;
     _selectionStart := 0;
     _caretScreenPosX := 0 |}.

(** The console as the game holds it after start-up: constructed, sized by
    one [Update] and opened. *)
Definition started `{ConsoleLimits} `{Host} : InGameConsole :=
  Open (Update 640 None (InGameConsole_ctor InGameConsole_init)).

(** Typing [s] into the edit line (the host's text input writes the buffer). *)
Definition type_line `{ConsoleLimits} (s : string) (c : InGameConsole) : InGameConsole :=
  set_consoleCurrentLine (buffer_of CONSOLE_INPUT_SIZE s) c.

(** A host with line height 10, the value of the specification's scenario. *)
Definition gameHost : Host := sampleHost gameLimits 10.

Definition hideHost : Host := hidingHost gameLimits 10.

(** A host whose font is taller than the console. *)
Definition tallFontHost : Host := sampleHost gameLimits 400.

(** A ring of three short commands, for small examples. *)
Definition smallLimits : ConsoleLimits := limits 300 3 8.

(** The text of [n] newline characters: [n + 1] empty segments. *)
Fixpoint blank_lines (n : nat) : string :=
  match n with
  | O => EmptyString
  | S n' => String newline (blank_lines n')
  end.

Definition hello_world : string := "hello" +:+ String newline "world".

(** Typing a command and pressing Enter; the console is left as it is if the
    event is undefined on it. *)
Definition run_command `{ConsoleLimits} `{Host} (s : string) (c : InGameConsole)
  : InGameConsole :=
  default c (Input LineExecute (type_line s c)).

(** ** Specification-side definitions *)

(** The visible line count as the specification words it: the floor of
    [(consoleHeight − 2×lineHeight − 4) / lineHeight], clamped to be
    non-negative, and 0 for a console of height 0. *)
Definition visibleLineCount_spec (consoleHeight lineHeight : Z) : Z :=
  if decide (consoleHeight = 0) then 0
  else Z.max 0 ((consoleHeight - 2 * lineHeight - 4) `div` lineHeight).

Definition consoleHeight (c : InGameConsole) : Z :=
  y (_consoleBottomRight c) - y (_consoleTopLeft c).

(** The scroll offset lies in [[0, max(0, totalLines − visibleLineCount())]]. *)
Definition scroll_in_range `{Host} (c : InGameConsole) : Prop :=
  0 ≤ _consoleScrollPos c ≤ Z.max 0 (numLines c - GetNumVisibleLines c).

(** A run of [scrollBy] calls, first delta first. *)
Definition Scroll_all `{Host} (deltas : list Z) (c : InGameConsole) : InGameConsole :=
  foldl (λ c delta, Scroll delta c) c deltas.

(** The segments of a text as the specification words them: the pieces
    between newline characters, in order. *)
Fixpoint segments_spec (s : string) : list string :=
  match s with
  | EmptyString => [EmptyString]
  | String ch rest =>
      if Ascii.eqb ch newline then EmptyString :: segments_spec rest
      else
        match segments_spec rest with
        | seg :: segs => String ch seg :: segs
        | [] => [String ch EmptyString]
        end
  end.

Fixpoint count_newlines (s : string) : nat :=
  match s with
  | EmptyString => O
  | String ch rest => ((if Ascii.eqb ch newline then 1 else 0) + count_newlines rest)%nat
  end.

(** The text of [s] from index [n] on. *)
Fixpoint string_drop (n : nat) (s : string) : string :=
  match n, s with
  | O, _ => s
  | S n', EmptyString => EmptyString
  | S n', String _ rest => string_drop n' rest
  end.

(** The last [n] elements of a list, in order. *)
Definition keep_last {A} (n : nat) (l : list A) : list A :=
  drop (length l - n) l.

(** The text that [WriteLine] puts before each segment. *)
Definition colourCodepoint_of (colourFormat : FormatToken) : string :=
  if decide (colourFormat ≠ ColourWindow2) then "{WINDOW_COLOUR_2}" else "".

(** The lines one [WriteLine] call appends, before the cap is applied. *)
Definition appended_lines (input : string) (colourFormat : FormatToken) : list string :=
  map (String.append (colourCodepoint_of colourFormat)) (segments_spec input).

(** A run of [WriteLine] calls, first call first. *)
Definition WriteLine_all `{ConsoleLimits} (writes : list (string * FormatToken))
    (c : InGameConsole) : InGameConsole :=
  foldl (λ c w, WriteLine w.1 w.2 c) c writes.

(** The history array has its declared size, which is not zero, every entry
    has the size of the edit buffer, and the count is within the array. *)
Definition history_wf `{ConsoleLimits} (c : InGameConsole) : Prop :=
  (1 ≤ CONSOLE_HISTORY_SIZE)%nat ∧
  length (_consoleHistory c) = CONSOLE_HISTORY_SIZE ∧
  Forall (λ entry, length entry = CONSOLE_INPUT_SIZE) (_consoleHistory c) ∧
  0 ≤ _consoleHistoryCount c ≤ Z.of_nat CONSOLE_HISTORY_SIZE.

(** The commands the ring holds, oldest first. *)
Definition history_entries (c : InGameConsole) : list (list utf8) :=
  take (Z.to_nat (_consoleHistoryCount c)) (_consoleHistory c).

(** A run of [HistoryAdd] calls, first call first. *)
Fixpoint HistoryAdd_all `{ConsoleLimits} (srcs : list (list utf8)) (c : InGameConsole)
  : option InGameConsole :=
  match srcs with
  | [] => Some c
  | src :: rest => c' ← HistoryAdd src c; HistoryAdd_all rest c'
  end.

(** The same input event [n] times. *)
Fixpoint Input_repeat `{ConsoleLimits} `{Host} (n : nat) (input : ConsoleInput)
    (c : InGameConsole) : option InGameConsole :=
  match n with
  | O => Some c
  | S n' => c' ← Input input c; Input_repeat n' input c'
  end.

(** What recall needs: a count within the history array and a live
    text-input session (the console is open). *)
Definition recall_ready (c : InGameConsole) : Prop :=
  0 ≤ _consoleHistoryCount c ≤ Z.of_nat (length (_consoleHistory c)) ∧
  is_Some (_consoleTextInputSession c).

(** The fresh-line state: the recall cursor is past the newest entry and the
    edit line is empty. *)
Definition fresh_line (c : InGameConsole) : Prop :=
  _consoleHistoryIndex c = _consoleHistoryCount c ∧
  c_str (_consoleCurrentLine c) = EmptyString.

(** ** Drawing

    [Draw] only reads the console; what it does is the sequence of calls it
    makes on the drawing surface.  The theme, the colour tables and the
    constants of the class declaration are parameters. *)

Record ScreenRect := { Point1 : ScreenCoordsXY; Point2 : ScreenCoordsXY }.

Definition ScreenCoordsXY_add (a b : ScreenCoordsXY) : ScreenCoordsXY :=
  {| x := x a + x b; y := y a + y b |}.

Definition ScreenCoordsXY_sub (a b : ScreenCoordsXY) : ScreenCoordsXY :=
  {| x := x a - x b; y := y a - y b |}.

Inductive WindowClass := WindowClassConsole.

Inductive FilterPaletteID := Palette51.

(** The calls [Draw] and [Invalidate] make, with their arguments. *)
Inductive DrawCall :=
  | GfxSetDirtyBlocks (rect : ScreenRect)
  | GfxFilterRect (rect : ScreenRect) (palette : FilterPaletteID)
  | GfxFillRectInset (rect : ScreenRect) (colour flags : Z)
  | GfxDrawString (coords : ScreenCoordsXY) (text : string) (colour : Z) (style : FontStyle)
  | DrawText (coords : ScreenCoordsXY) (colour : Z) (style : FontStyle) (text : string)
      (noFormatting : bool)
  | GfxFillRect (rect : ScreenRect) (colour : Z).

Class DrawHost := {
  ThemeGetColour : WindowClass → nat → Z;
  NOT_TRANSLUCENT : Z → Z;
  BASE_COLOUR : Z → Z;
  COLOUR_BLACK : Z;
  COLOUR_FLAG_OUTLINE : Z;
  TEXT_COLOUR_255 : Z;
  INSET_RECT_FLAG_FILL_NONE : Z;
  INSET_RECT_FLAG_BORDER_INSET : Z;
  LocalisationService_UseTrueTypeFont : bool;
  ColourMapA_lightest : Z → Z;
  ColourMapA_light : Z → Z;
  ColourMapA_mid_dark : Z → Z;
  CONSOLE_EDGE_PADDING : Z;
  CONSOLE_CARET_FLASH_THRESHOLD : Z;
  CONSOLE_CARET_WIDTH : Z
}.

(** [static_cast<size_t>(v)] of an [int32_t], and the conversion of an
    [int32_t] operand in [size_t] arithmetic: modulo 2^64. *)
Definition to_size_t (v : Z) : Z := v `mod` 2 ^ 64.

Section Drawing.
Context `{Host} `{DrawHost}.

Definition Invalidate (c : InGameConsole) : list DrawCall :=
  [GfxSetDirtyBlocks {| Point1 := _consoleTopLeft c; Point2 := _consoleBottomRight c |}].

(** The loop of [Draw] over the scrollback, at index [i] with the pen at
    [screenCoords]; [fuel] bounds the iterations left, and the length of the
    scrollback is enough since the loop stops at [i = size].  Reading
    [_consoleLines[index]] out of range is undefined. *)
Fixpoint Draw_lines (fuel : nat) (i : Z) (screenCoords : ScreenCoordsXY)
    (colourFormatStr : string) (textColour maxLines : Z) (c : InGameConsole)
  : option (list DrawCall) :=
  match fuel with
  | O => Some []
  | S fuel' =>
      if decide (i < Z.of_nat (length (_consoleLines c)) ∧ i < to_size_t maxLines) then
        let index := to_size_t (i + _consoleScrollPos c) in
        line ← array_get (_consoleLines c) index;
        let lineBuffer := colourFormatStr +:+ line in
        rest ← Draw_lines fuel' (i + 1)
                 {| x := x screenCoords; y := y screenCoords + InGameConsoleGetLineHeight |}
                 colourFormatStr textColour maxLines c;
        Some (GfxDrawString screenCoords lineBuffer textColour InGameConsoleGetFontStyle
                :: rest)
      else Some []
  end.

Definition Draw (c : InGameConsole) : option (list DrawCall) :=
  if negb (_isOpen c) then Some []
  else
    (* Set font *)
    let textColour := NOT_TRANSLUCENT (ThemeGetColour WindowClassConsole 1) in
    let lineHeight := InGameConsoleGetLineHeight in
    let maxLines := GetNumVisibleLines c in
    (* This is something of a hack to ensure the text is actually black
       as opposed to a desaturated grey *)
    let colourFormatStr :=
      if decide (textColour = COLOUR_BLACK) then "{BLACK}"%string else EmptyString in
    (* TTF looks far better without the outlines *)
    let textColour :=
      if negb LocalisationService_UseTrueTypeFont then Z.lor textColour COLOUR_FLAG_OUTLINE
      else textColour in
    let topLeft := _consoleTopLeft c in
    let bottomRight := _consoleBottomRight c in
    let backgroundColour := ThemeGetColour WindowClassConsole 0 in
    let screenCoords :=
      ScreenCoordsXY_add topLeft {| x := CONSOLE_EDGE_PADDING; y := CONSOLE_EDGE_PADDING |} in
    (* Draw text inside console *)
    lineCalls ← Draw_lines (length (_consoleLines c)) 0 screenCoords colourFormatStr
                  textColour maxLines c;
    let screenCoords :=
      {| x := x screenCoords; y := y bottomRight - lineHeight - CONSOLE_EDGE_PADDING - 1 |} in
    (* Draw current line *)
    let lineBuffer := colourFormatStr +:+ c_str (_consoleCurrentLine c) in
    let caretCalls :=
      if decide (_consoleCaretTicks c < CONSOLE_CARET_FLASH_THRESHOLD) then
        let caret :=
          ScreenCoordsXY_add screenCoords {| x := _caretScreenPosX c; y := lineHeight |} in
        let caretColour := ColourMapA_lightest (BASE_COLOUR textColour) in
        [GfxFillRect
           {| Point1 := caret;
              Point2 := ScreenCoordsXY_add caret {| x := CONSOLE_CARET_WIDTH; y := 1 |} |}
           caretColour]
      else [] in
    (* What about border colours? *)
    let borderColour1 := ColourMapA_light (BASE_COLOUR backgroundColour) in
    let borderColour2 := ColourMapA_mid_dark (BASE_COLOUR backgroundColour) in
    Some
      (Invalidate c ++
       [ (* Give console area a translucent effect. *)
         GfxFilterRect {| Point1 := topLeft; Point2 := bottomRight |} Palette51;
         (* Make input area more opaque. *)
         GfxFilterRect
           {| Point1 := {| x := x topLeft; y := y bottomRight - lineHeight - 10 |};
              Point2 := ScreenCoordsXY_sub bottomRight {| x := 0; y := 1 |} |} Palette51;
         (* Paint background colour. *)
         GfxFillRectInset {| Point1 := topLeft; Point2 := bottomRight |} backgroundColour
           INSET_RECT_FLAG_FILL_NONE;
         GfxFillRectInset
           {| Point1 := ScreenCoordsXY_add topLeft {| x := 1; y := 1 |};
              Point2 := ScreenCoordsXY_sub bottomRight {| x := 1; y := 1 |} |}
           backgroundColour INSET_RECT_FLAG_BORDER_INSET ] ++
       lineCalls ++
       [DrawText screenCoords TEXT_COLOUR_255 InGameConsoleGetFontStyle lineBuffer true] ++
       caretCalls ++
       [ (* Input area top border *)
         GfxFillRect
           {| Point1 := {| x := x topLeft; y := y bottomRight - lineHeight - 11 |};
              Point2 := {| x := x bottomRight; y := y bottomRight - lineHeight - 11 |} |}
           borderColour1;
         GfxFillRect
           {| Point1 := {| x := x topLeft; y := y bottomRight - lineHeight - 10 |};
              Point2 := {| x := x bottomRight; y := y bottomRight - lineHeight - 10 |} |}
           borderColour2;
         (* Input area bottom border *)
         GfxFillRect
           {| Point1 := {| x := x topLeft; y := y bottomRight - 1 |};
              Point2 := {| x := x bottomRight; y := y bottomRight - 1 |} |}
           borderColour1;
         GfxFillRect
           {| Point1 := {| x := x topLeft; y := y bottomRight |}; Point2 := bottomRight |}
           borderColour2 ]).

End Drawing.

(** A theme for the examples: white text, no TrueType font. *)
Definition sampleDrawHost : DrawHost :=
  {| ThemeGetColour := λ _ i, if decide (i = 1%nat) then 2 else 10;
     NOT_TRANSLUCENT := λ v, Z.land v 127;
     BASE_COLOUR := λ v, Z.land v 31;
     COLOUR_BLACK := 0;
     COLOUR_FLAG_OUTLINE := 32;
     TEXT_COLOUR_255 := 255;
     INSET_RECT_FLAG_FILL_NONE := 16;
     INSET_RECT_FLAG_BORDER_INSET := 32;
     LocalisationService_UseTrueTypeFont := false;
     ColourMapA_lightest := λ v, v + 200;
     ColourMapA_light := λ v, v + 100;
     ColourMapA_mid_dark := λ v, v + 50;
     CONSOLE_EDGE_PADDING := 4;
     CONSOLE_CARET_FLASH_THRESHOLD := 15;
     CONSOLE_CARET_WIDTH := 6 |}.

(** The calls that print the given texts one below the other, from
    [screenCoords] down. *)
Fixpoint line_calls `{Host} (screenCoords : ScreenCoordsXY) (colourFormatStr : string)
    (textColour : Z) (texts : list string) : list DrawCall :=
  match texts with
  | [] => []
  | text :: rest =>
      GfxDrawString screenCoords (colourFormatStr +:+ text) textColour
        InGameConsoleGetFontStyle
      :: line_calls
           {| x := x screenCoords; y := y screenCoords + InGameConsoleGetLineHeight |}
           colourFormatStr textColour rest
  end.

(** The number of scrollback lines [Draw] prints: the loop runs while
    [i < size] and [i < static_cast<size_t>(maxLines)]. *)
Definition drawn_count `{Host} (c : InGameConsole) : Z :=
  Z.min (numLines c) (to_size_t (GetNumVisibleLines c)).

(** The text [Draw] puts before every line it prints. *)
Definition colourFormatStr_of `{DrawHost} : string :=
  if decide (NOT_TRANSLUCENT (ThemeGetColour WindowClassConsole 1) = COLOUR_BLACK)
  then "{BLACK}" else "".

(** The scrollback lines a list of draw calls prints, with the height they
    are printed at. *)
Definition drawn_strings (calls : list DrawCall) : list (Z * string) :=
  omap (λ call, match call with
                | GfxDrawString coords text _ _ => Some (y coords, text)
                | _ => None
                end) calls.

(** The values of the offset and of the line count fit their C++ types. *)
Definition in_machine_range (c : InGameConsole) : Prop :=
  - 2 ^ 31 ≤ _consoleScrollPos c < 2 ^ 31 ∧ numLines c < 2 ^ 31.

(** ** Invariants of the console *)

(** The interpreter leaves the history, the edit line and the text-input
    session alone. *)
Definition Execute_keeps_input `{Host} : Prop :=
  ∀ s c,
    _consoleHistory (Execute s c) = _consoleHistory c ∧
    _consoleHistoryCount (Execute s c) = _consoleHistoryCount c ∧
    _consoleHistoryIndex (Execute s c) = _consoleHistoryIndex c ∧
    _consoleCurrentLine (Execute s c) = _consoleCurrentLine c ∧
    _consoleTextInputSession (Execute s c) = _consoleTextInputSession c.

(** What [Input] relies on: a well-formed history ring with the recall cursor
    within it, an edit buffer of its declared size, a live text-input
    session and a scrollback that is not empty. *)
Definition console_inv `{ConsoleLimits} (c : InGameConsole) : Prop :=
  history_wf c ∧
  0 ≤ _consoleHistoryIndex c ≤ _consoleHistoryCount c ∧
  length (_consoleCurrentLine c) = CONSOLE_INPUT_SIZE ∧
  is_Some (_consoleTextInputSession c) ∧
  _consoleLines c ≠ [].

(** What the user does between two frames: types a text into the edit line
    (the host's text input fills the buffer) or sends an input event. *)
Inductive UserAction :=
  | TypeText (s : string)
  | Press (input : ConsoleInput).

Definition act `{ConsoleLimits} `{Host} (a : UserAction) (c : InGameConsole)
  : option InGameConsole :=
  match a with
  | TypeText s => Some (type_line s c)
  | Press input => Input input c
  end.

Fixpoint act_all `{ConsoleLimits} `{Host} (actions : list UserAction) (c : InGameConsole)
  : option InGameConsole :=
  match actions with
  | [] => Some c
  | a :: rest => c' ← act a c; act_all rest c'
  end.

(** [n] frames of [Update] with the same width and viewport. *)
Fixpoint Update_repeat (n : nat) (width : Z) (viewPos : option ScreenCoordsXY)
    (c : InGameConsole) : InGameConsole :=
  match n with
  | O => c
  | S n' => Update_repeat n' width viewPos (Update width viewPos c)
  end.

(** All the lines of a list joined with newline characters. *)
Fixpoint join_lines (lines : list string) : string :=
  match lines with
  | [] => EmptyString
  | [line] => line
  | line :: rest => line +:+ String newline (join_lines rest)
  end.

Fixpoint has_newline (s : string) : bool :=
  match s with
  | EmptyString => false
  | String ch rest => Ascii.eqb ch newline || has_newline rest
  end.

(** Closing goals on concrete consoles by evaluation. *)
Ltac by_compute := vm_compute; first [reflexivity | discriminate | done].

Ltac history_wf_by_compute :=
  unfold history_wf; split; [vm_compute; lia|];
  split; [by vm_compute|]; split; [by apply (bool_decide_unpack _); vm_compute|];
  split; by_compute.

Ltac range_by_compute := vm_compute; repeat split; first [discriminate | reflexivity].

Ltac console_inv_by_compute :=
  unfold console_inv; split; [history_wf_by_compute|];
  split; [range_by_compute|]; split; [by vm_compute|];
  split; [by vm_compute; eauto|by_compute].

(** * Properties *)

Section Geometry.
Context `{Host}.

Lemma GetNumVisibleLines_unfold c :
  GetNumVisibleLines c =
    if decide (consoleHeight c = 0) then 0
    else Z.quot (consoleHeight c - 2 * InGameConsoleGetLineHeight - 4)
           InGameConsoleGetLineHeight.
Proof. reflexivity. Qed.

(** The visible line count only reads the two corners of the console. *)
Lemma GetNumVisibleLines_corners c c' :
  _consoleTopLeft c' = _consoleTopLeft c →
  _consoleBottomRight c' = _consoleBottomRight c →
  GetNumVisibleLines c' = GetNumVisibleLines c.
Proof. intros Htl Hbr. unfold GetNumVisibleLines. by rewrite Htl, Hbr. Qed.

Lemma quot_negative_iff d lh : 0 < lh → (Z.quot d lh < 0 ↔ d ≤ - lh).
Proof.
  intros Hlh. split.
  - intros Hneg. destruct (decide (d ≤ - lh)) as [|Hgt]; [done|].
    exfalso. destruct (decide (0 ≤ d)) as [Hd|Hd].
    + pose proof (Z.quot_pos d lh Hd Hlh). lia.
    + assert (Hq : Z.quot (- d) lh = 0) by (apply Z.quot_small; lia).
      rewrite Z.quot_opp_l in Hq by lia. lia.
  - intros Hd.
    assert (Hq : 0 < Z.quot (- d) lh) by (apply Z.quot_str_pos; lia).
    rewrite Z.quot_opp_l in Hq by lia. lia.
Qed.

(** C2 (amended).  [GetNumVisibleLines] agrees with the clamped floor of the
    specification exactly when the console height is 0 or exceeds
    [lineHeight + 4]; the code divides with truncation toward zero and does
    not clamp. *)
Theorem GetNumVisibleLines_meets_spec_iff c :
  GetNumVisibleLines c = visibleLineCount_spec (consoleHeight c) InGameConsoleGetLineHeight
  ↔ (consoleHeight c = 0 ∨ InGameConsoleGetLineHeight + 4 < consoleHeight c).
Proof.
  pose proof (FontGetLineHeight_pos InGameConsoleGetFontStyle) as Hlh.
  fold InGameConsoleGetLineHeight in Hlh.
  rewrite GetNumVisibleLines_unfold. unfold visibleLineCount_spec.
  set (h := consoleHeight c). set (lh := InGameConsoleGetLineHeight) in *.
  destruct (decide (h = 0)) as [Hz|Hnz]; [by intuition|].
  set (d := h - 2 * lh - 4).
  destruct (decide (0 ≤ d)) as [Hd|Hd].
  - rewrite Z.quot_div_nonneg by lia.
    pose proof (Z.div_pos d lh Hd Hlh). split; [intros _; right; lia | lia].
  - assert (Hfloor : d `div` lh < 0) by (apply Z.div_lt_upper_bound; lia).
    rewrite Z.max_l by lia.
    pose proof (quot_negative_iff d lh Hlh) as Hneg.
    destruct (decide (d ≤ - lh)) as [Hle|Hgt].
    + split; [lia|]. intros [?|?]; lia.
    + split; [intros _; right; lia|]. intros _.
      assert (Hq : Z.quot (- d) lh = 0) by (apply Z.quot_small; lia).
      rewrite Z.quot_opp_l in Hq by lia. lia.
Qed.

(** *** Scrolling *)

Lemma clamp_range v lo hi : lo ≤ hi → lo ≤ clamp v lo hi ≤ hi.
Proof. intros. unfold clamp. repeat case_decide; lia. Qed.

Lemma wrap_int32_range v : - 2 ^ 31 ≤ wrap_int32 v < 2 ^ 31.
Proof. unfold wrap_int32. pose proof (Z.mod_pos_bound (v + 2 ^ 31) (2 ^ 32)). lia. Qed.

Lemma wrap_int32_small v : - 2 ^ 31 ≤ v < 2 ^ 31 → wrap_int32 v = v.
Proof. intros. unfold wrap_int32. rewrite Z.mod_small by lia. lia. Qed.

(** On a console whose offset is in range, [Scroll] moves the offset by
    [−linesToScroll] and clamps it to [[0, max(0, total − visible)]]. *)
Lemma Scroll_clamps linesToScroll c :
  scroll_in_range c →
  _consoleScrollPos (Scroll linesToScroll c) =
    clamp (wrap_int32 (_consoleScrollPos c - linesToScroll)) 0
      (Z.max 0 (numLines c - GetNumVisibleLines c)).
Proof.
  unfold scroll_in_range, Scroll. intros Hin.
  destruct (decide (numLines c > GetNumVisibleLines c)) as [Hgt|Hle]; simpl.
  - by rewrite Z.max_r by lia.
  - rewrite Z.max_l in * by lia. unfold clamp. repeat case_decide; lia.
Qed.

Lemma Scroll_lines linesToScroll c :
  _consoleLines (Scroll linesToScroll c) = _consoleLines c.
Proof. unfold Scroll. by case_decide. Qed.

Lemma Scroll_visible linesToScroll c :
  GetNumVisibleLines (Scroll linesToScroll c) = GetNumVisibleLines c.
Proof. unfold Scroll. by case_decide. Qed.

Lemma Scroll_in_range linesToScroll c :
  scroll_in_range c → scroll_in_range (Scroll linesToScroll c).
Proof.
  intros Hin. unfold scroll_in_range.
  rewrite Scroll_clamps by done.
  unfold numLines. rewrite Scroll_lines, Scroll_visible.
  apply clamp_range. lia.
Qed.

(** With more lines than are visible [Scroll] clamps, whatever the offset
    was. *)
Lemma Scroll_more_in_range linesToScroll c :
  numLines c > GetNumVisibleLines c → scroll_in_range (Scroll linesToScroll c).
Proof.
  intros Hmore. unfold scroll_in_range, numLines.
  rewrite Scroll_lines, Scroll_visible. fold (numLines c).
  unfold Scroll. rewrite decide_True by done. simpl.
  pose proof (clamp_range (wrap_int32 (_consoleScrollPos c - linesToScroll)) 0
                (numLines c - GetNumVisibleLines c)).
  lia.
Qed.

(** When all lines fit [Scroll] changes nothing. *)
Lemma Scroll_fits linesToScroll c :
  numLines c ≤ GetNumVisibleLines c → Scroll linesToScroll c = c.
Proof. intros Hfits. unfold Scroll. rewrite decide_False; [done|lia]. Qed.

Lemma Scroll_all_fits deltas c :
  numLines c ≤ GetNumVisibleLines c → Scroll_all deltas c = c.
Proof.
  intros Hfits. induction deltas as [|d deltas IH]; [done|].
  simpl. by rewrite Scroll_fits.
Qed.

Lemma Scroll_all_keeps_range deltas c :
  scroll_in_range c → scroll_in_range (Scroll_all deltas c).
Proof.
  revert c. induction deltas as [|d deltas IH]; intros c Hin; [done|].
  simpl. apply IH. by apply Scroll_in_range.
Qed.

(** C5 (amended).  [Scroll] clamps only when the scrollback holds more
    lines than are visible.  Then a call sets the offset to
    [clamp(offset − delta, 0, totalLines − visible)], the subtraction being
    that of [int32_t], and after every non-empty sequence of [Scroll] calls
    the offset satisfies
    [0 ≤ scrollOffset ≤ max(0, totalLines − visibleLineCount())], whatever it
    was before.  When all lines fit, [Scroll] changes nothing and every
    sequence of calls leaves the console as it was, with its offset in range
    or out of range as before.  Hence every sequence of [Scroll] calls keeps
    an offset that is in range in range, and after a non-empty sequence the
    offset is in range exactly when there are more lines than are visible or
    it was in range at the start. *)
Theorem Scroll_all_in_range delta deltas c :
  (numLines c > GetNumVisibleLines c →
     _consoleScrollPos (Scroll delta c) =
       clamp (wrap_int32 (_consoleScrollPos c - delta)) 0
         (numLines c - GetNumVisibleLines c) ∧
     scroll_in_range (Scroll_all (delta :: deltas) c)) ∧
  (numLines c ≤ GetNumVisibleLines c → Scroll_all (delta :: deltas) c = c) ∧
  (scroll_in_range c → scroll_in_range (Scroll_all (delta :: deltas) c)) ∧
  (scroll_in_range (Scroll_all (delta :: deltas) c) ↔
     numLines c > GetNumVisibleLines c ∨ scroll_in_range c).
Proof.
  assert (Hmore : numLines c > GetNumVisibleLines c →
                  scroll_in_range (Scroll_all (delta :: deltas) c)).
  { intros Hmore. simpl. apply Scroll_all_keeps_range. by apply Scroll_more_in_range. }
  split; [|split; [|split]].
  - intros Hgt. split; [|by apply Hmore].
    unfold Scroll. by rewrite decide_True by done.
  - apply Scroll_all_fits.
  - apply Scroll_all_keeps_range.
  - destruct (decide (numLines c > GetNumVisibleLines c)) as [Hgt|Hle].
    + split; [by left|]. intros _. by apply Hmore.
    + rewrite Scroll_all_fits by lia. split; [by right|]. by intros [?|?].
Qed.

(** [ScrollToEnd] puts the offset in range, whatever it was. *)
Lemma ScrollToEnd_in_range c : scroll_in_range (ScrollToEnd c).
Proof.
  unfold scroll_in_range, ScrollToEnd.
  destruct (decide (GetNumVisibleLines c = 0)) as [Hz|Hnz].
  - change (0 ≤ 0 ≤ Z.max 0 (numLines c - GetNumVisibleLines c)).
    unfold numLines. lia.
  - change (0 ≤ Z.max 0 (numLines c - GetNumVisibleLines c)
              ≤ Z.max 0 (numLines c - GetNumVisibleLines c)).
    lia.
Qed.

(** Opening the console scrolls to the end, so it starts with its offset in
    range; so does the new console, whose offset is 0. *)
Lemma Open_in_range c : scroll_in_range (Open c).
Proof. exact (ScrollToEnd_in_range (set_isOpen true c)). Qed.

Lemma scroll_in_range_zero c : _consoleScrollPos c = 0 → scroll_in_range c.
Proof. unfold scroll_in_range. intros ->. lia. Qed.

End Geometry.

Section Scrollback.
Context `{ConsoleLimits}.

Lemma WriteLine_loop_step input cc off lines :
  WriteLine_loop input cc off lines =
    match find input newline off with
    | Some p => WriteLine_loop input cc (p + 1) (lines ++ [cc +:+ substr input off (Some p)])
    | None => lines ++ [cc +:+ substr input off None]
    end.
Proof.
  simp WriteLine_loop. generalize (inspect (find input newline off)).
  intros [[p|] Hfind]; simpl; by rewrite Hfind.
Qed.

Lemma substring_all s : substring 0 (String.length s) s = s.
Proof. induction s as [|ch s IH]; simpl; [done|]. by rewrite IH. Qed.

Lemma segments_nonempty s : segments_spec s ≠ [].
Proof.
  destruct s as [|ch s]; simpl; [done|].
  destruct (Ascii.eqb ch newline); [done|]. by destruct (segments_spec s).
Qed.

(** What one [find] tells about the segments of the text from [pos] on. *)
Lemma find_segments s : ∀ pos, (pos ≤ String.length s)%nat →
  match find s newline pos with
  | Some p =>
      (pos ≤ p < String.length s)%nat ∧
      segments_spec (string_drop pos s) =
        substring pos (p - pos) s :: segments_spec (string_drop (p + 1) s)
  | None =>
      segments_spec (string_drop pos s) = [substring pos (String.length s - pos) s]
  end.
Proof.
  induction s as [|ch s IH]; intros pos Hpos; simpl in *.
  - by assert (pos = 0%nat) as -> by lia.
  - destruct pos as [|pos]; simpl.
    + destruct (Ascii.eqb ch newline) eqn:Hch; simpl.
      * split; [lia|done].
      * specialize (IH 0%nat ltac:(lia)).
        assert (string_drop 0 s = s) as Hs by (by destruct s).
        rewrite Hs in IH.
        destruct (find s newline 0) as [p|]; simpl.
        -- destruct IH as [Hp IH]. rewrite IH, Nat.sub_0_r. split; [lia|done].
        -- rewrite IH, Nat.sub_0_r. done.
    + specialize (IH pos ltac:(lia)).
      destruct (find s newline pos) as [p|]; simpl; [|done].
      destruct IH as [Hp IH]. split; [lia|done].
Qed.

(** The loop of [WriteLine] appends one line per segment of the text that
    starts at [stringOffset], each behind the colour text. *)
Lemma WriteLine_loop_segments input cc : ∀ n off lines,
  (String.length input - off = n)%nat → (off ≤ String.length input)%nat →
  WriteLine_loop input cc off lines =
    lines ++ map (String.append cc) (segments_spec (string_drop off input)).
Proof.
  induction n as [n IH] using lt_wf_ind. intros off lines Hn Hoff.
  rewrite WriteLine_loop_step.
  pose proof (find_segments input off Hoff) as Hfind.
  destruct (find input newline off) as [p|]; simpl.
  - destruct Hfind as [Hp ->].
    rewrite (IH (String.length input - (p + 1))%nat) by lia.
    by rewrite <-app_assoc.
  - by rewrite Hfind.
Qed.

Lemma WriteLine_loop_appended input colourFormat lines :
  WriteLine_loop input (colourCodepoint_of colourFormat) 0 lines =
    lines ++ appended_lines input colourFormat.
Proof.
  rewrite (WriteLine_loop_segments input _ (String.length input) 0) by lia.
  done.
Qed.

Lemma keep_last_length {A} n (l : list A) : (length (keep_last n l) ≤ n)%nat.
Proof. unfold keep_last. rewrite length_drop. lia. Qed.

Lemma keep_last_short {A} n (l : list A) : (length l ≤ n)%nat → keep_last n l = l.
Proof. intros. unfold keep_last. by replace (length l - n)%nat with 0%nat by lia. Qed.

Lemma keep_last_app {A} n (l1 l2 : list A) :
  keep_last n (keep_last n l1 ++ l2) = keep_last n (l1 ++ l2).
Proof.
  unfold keep_last. rewrite !length_app, length_drop.
  destruct (decide (length l1 ≤ n)%nat) as [Hle|Hgt].
  - replace (length l1 - n)%nat with 0%nat by lia. simpl.
    f_equal. lia.
  - rewrite !drop_app, drop_drop, length_drop. f_equal.
    + f_equal. lia.
    + f_equal. lia.
Qed.

(** [WriteLine] appends the segments and keeps the last
    [CONSOLE_MAX_LINES] lines; nothing else of the console changes. *)
Lemma WriteLine_lines input colourFormat c :
  _consoleLines (WriteLine input colourFormat c) =
    keep_last CONSOLE_MAX_LINES (_consoleLines c ++ appended_lines input colourFormat).
Proof.
  unfold WriteLine. fold (colourCodepoint_of colourFormat).
  rewrite WriteLine_loop_appended.
  case_decide; simpl; [done|]. by rewrite keep_last_short by lia.
Qed.

Lemma WriteLine_set_lines input colourFormat c :
  WriteLine input colourFormat c =
    set_consoleLines (_consoleLines (WriteLine input colourFormat c)) c.
Proof. unfold WriteLine. by case_decide. Qed.

Lemma WriteLine_scrollPos input colourFormat c :
  _consoleScrollPos (WriteLine input colourFormat c) = _consoleScrollPos c.
Proof. by rewrite WriteLine_set_lines. Qed.

Lemma WriteLine_length input colourFormat c :
  (length (_consoleLines (WriteLine input colourFormat c)) ≤ CONSOLE_MAX_LINES)%nat.
Proof. rewrite WriteLine_lines. apply keep_last_length. Qed.

Lemma WriteLine_all_lines writes : ∀ c,
  (length (_consoleLines c) ≤ CONSOLE_MAX_LINES)%nat →
  _consoleLines (WriteLine_all writes c) =
    keep_last CONSOLE_MAX_LINES
      (_consoleLines c ++ concat (map (λ w, appended_lines w.1 w.2) writes)).
Proof.
  induction writes as [|w writes IH]; intros c Hc; simpl.
  - by rewrite app_nil_r, keep_last_short.
  - unfold WriteLine_all in *. rewrite IH by apply WriteLine_length.
    by rewrite WriteLine_lines, keep_last_app, <-app_assoc.
Qed.

(** C3.  After every sequence of [WriteLine] calls (at least one), on any
    console, the scrollback holds at most [CONSOLE_MAX_LINES] lines: all
    lines produced so far, in order, without the first
    [count − CONSOLE_MAX_LINES]; and a further call removes exactly
    [count − CONSOLE_MAX_LINES] lines from the front of what it has appended
    to. *)
Theorem WriteLine_all_keeps_most_recent w writes c :
  let produced :=
    _consoleLines c ++ concat (map (λ w, appended_lines w.1 w.2) (w :: writes)) in
  let c' := WriteLine_all (w :: writes) c in
  (length (_consoleLines c') ≤ CONSOLE_MAX_LINES)%nat ∧
  _consoleLines c' = drop (length produced - CONSOLE_MAX_LINES) produced ∧
  ∀ input colourFormat,
    let all := _consoleLines c' ++ appended_lines input colourFormat in
    _consoleLines (WriteLine input colourFormat c') =
      drop (length all - CONSOLE_MAX_LINES) all.
Proof.
  intros produced c'.
  assert (Hlines : _consoleLines c' = keep_last CONSOLE_MAX_LINES produced).
  { subst c' produced. simpl. fold (WriteLine_all writes (WriteLine w.1 w.2 c)).
    rewrite WriteLine_all_lines by apply WriteLine_length.
    by rewrite WriteLine_lines, keep_last_app, <-app_assoc. }
  split; [rewrite Hlines; apply keep_last_length|]. split; [done|].
  intros input colourFormat all. subst all. by rewrite WriteLine_lines.
Qed.

Lemma segments_length s : length (segments_spec s) = S (count_newlines s).
Proof.
  induction s as [|ch s IH]; simpl; [done|].
  destruct (Ascii.eqb ch newline); simpl; [by rewrite IH|].
  destruct (segments_spec s); simpl in *; lia.
Qed.

Lemma append_String ch s t : String ch s +:+ t = String ch (s +:+ t).
Proof. reflexivity. Qed.

Lemma append_empty_r s : s +:+ EmptyString = s.
Proof. induction s as [|ch s IH]; [done|]. by rewrite append_String, IH. Qed.

Lemma segments_trailing_newline s :
  segments_spec (s +:+ String newline EmptyString) = segments_spec s ++ [EmptyString].
Proof.
  induction s as [|ch s IH]; [done|].
  rewrite append_String. simpl.
  destruct (Ascii.eqb ch newline); simpl; [by rewrite IH|].
  rewrite IH. pose proof (segments_nonempty s). by destruct (segments_spec s).
Qed.

(** C10.  [WriteLine] appends as many lines as the text has newline
    characters, plus one, before it applies the cap: one line holding only
    the colour text for the empty string, and for a text that ends in a
    newline a last line holding only the colour text. *)
Theorem WriteLine_appends_newlines_plus_one input colourFormat c :
  WriteLine_loop input (colourCodepoint_of colourFormat) 0 (_consoleLines c) =
    _consoleLines c ++ appended_lines input colourFormat ∧
  _consoleLines (WriteLine input colourFormat c) =
    keep_last CONSOLE_MAX_LINES (_consoleLines c ++ appended_lines input colourFormat) ∧
  length (appended_lines input colourFormat) = S (count_newlines input) ∧
  appended_lines EmptyString colourFormat = [colourCodepoint_of colourFormat] ∧
  appended_lines (input +:+ String newline EmptyString) colourFormat =
    appended_lines input colourFormat ++ [colourCodepoint_of colourFormat].
Proof.
  split; [apply WriteLine_loop_appended|]. split; [apply WriteLine_lines|].
  unfold appended_lines. rewrite length_map, segments_length.
  split; [done|]. simpl. rewrite append_empty_r. split; [done|].
  by rewrite segments_trailing_newline, map_app; simpl; rewrite append_empty_r.
Qed.

(** The colour passed to [WriteLine] only matters through the test against
    [ColourWindow2]: any two other colours write the same lines. *)
Lemma WriteLine_colour_ignored input colour1 colour2 c :
  colour1 ≠ ColourWindow2 → colour2 ≠ ColourWindow2 →
  WriteLine input colour1 c = WriteLine input colour2 c.
Proof.
  intros H1 H2. unfold WriteLine.
  by rewrite (decide_True _ _ H1), (decide_True _ _ H2).
Qed.

End Scrollback.

Section ScrollbackAndScroll.
Context `{ConsoleLimits} `{Host}.

(** C6 (amended).  [WriteLine] never changes the scroll offset, on any
    console and also when it drops lines from the front: it changes the
    scrollback and nothing else, so it performs no clamp.  If the offset was
    in range and the scrollback within its cap before the call, the offset
    is in range after it, because the call does not lower the line count. *)
Theorem WriteLine_keeps_scroll_offset input colourFormat c :
  _consoleScrollPos (WriteLine input colourFormat c) = _consoleScrollPos c ∧
  WriteLine input colourFormat c =
    set_consoleLines (_consoleLines (WriteLine input colourFormat c)) c ∧
  (scroll_in_range c →
   (length (_consoleLines c) ≤ CONSOLE_MAX_LINES)%nat →
   numLines c ≤ numLines (WriteLine input colourFormat c) ∧
   scroll_in_range (WriteLine input colourFormat c)).
Proof.
  split; [apply WriteLine_scrollPos|]. split; [apply WriteLine_set_lines|].
  intros Hin Hcap.
  assert (Hgrow : numLines c ≤ numLines (WriteLine input colourFormat c)).
  { unfold numLines. rewrite WriteLine_lines. unfold keep_last.
    rewrite length_drop, length_app. lia. }
  split; [done|].
  unfold scroll_in_range in *. rewrite WriteLine_scrollPos.
  rewrite (GetNumVisibleLines_corners c) by (by rewrite WriteLine_set_lines).
  lia.
Qed.

End ScrollbackAndScroll.

Section History.
Context `{ConsoleLimits}.

(** The ring of a new console is well formed. *)
Lemma InGameConsole_init_wf :
  (1 ≤ CONSOLE_HISTORY_SIZE)%nat → history_wf InGameConsole_init.
Proof.
  intros Hpos. unfold history_wf. simpl. split; [done|].
  split; [by rewrite length_replicate|]. split; [|lia].
  apply Forall_replicate. by rewrite length_replicate.
Qed.

Lemma memcpy_whole dst src n : length dst = n → length src = n → memcpy dst src n = src.
Proof.
  intros Hdst Hsrc. unfold memcpy.
  by rewrite take_ge, drop_ge, app_nil_r by lia.
Qed.

Lemma array_get_nat {A} (a : list A) (i : nat) : array_get a (Z.of_nat i) = a !! i.
Proof. unfold array_get. rewrite decide_True by lia. by rewrite Nat2Z.id. Qed.

Lemma array_set_nat {A} (a : list A) (i : nat) v :
  (i < length a)%nat → array_set a (Z.of_nat i) v = Some (<[i := v]> a).
Proof. intros. unfold array_set. rewrite decide_True by lia. by rewrite Nat2Z.id. Qed.

(** The shifting loop moves [n] entries one place toward index 0, starting
    at index [i]; the entry at [i + n] stays where it is as well. *)
Lemma HistoryAdd_shift_spec n : ∀ (i : nat) history,
  (i + n < length history)%nat →
  Forall (λ entry, length entry = CONSOLE_INPUT_SIZE) history →
  HistoryAdd_shift n (Z.of_nat i) history =
    Some (take i history ++ take n (drop (S i) history) ++ drop (i + n) history).
Proof.
  induction n as [|n IH]; intros i history Hlen Hsize; simpl.
  - rewrite Nat.add_0_r. by rewrite take_drop.
  - replace (Z.of_nat i + 1) with (Z.of_nat (S i)) by lia.
    rewrite !array_get_nat.
    destruct (lookup_lt_is_Some_2 history (S i) ltac:(lia)) as [src Hsrc].
    destruct (lookup_lt_is_Some_2 history i ltac:(lia)) as [dst Hdst].
    rewrite Hsrc, Hdst. simpl.
    rewrite array_set_nat by lia. simpl.
    rewrite memcpy_whole;
      [|by eapply (Forall_lookup_1 _ _ _ _ Hsize)|by eapply (Forall_lookup_1 _ _ _ _ Hsize)].
    rewrite IH.
    + f_equal.
      rewrite (take_S_r _ _ src) by (by rewrite list_lookup_insert_eq by lia).
      rewrite take_insert_ge by lia.
      rewrite !drop_insert_lt by lia.
      rewrite (drop_S history src (S i)) by done. simpl.
      rewrite <-app_assoc. simpl.
      by replace (i + S n)%nat with (S (i + n)) by lia.
    + rewrite length_insert. lia.
    + apply Forall_insert; [done|]. by eapply (Forall_lookup_1 _ _ _ _ Hsize).
Qed.

Lemma keep_last_snoc_full {A} n (l : list A) v :
  length l = n → (1 ≤ n)%nat → keep_last n (l ++ [v]) = drop 1 l ++ [v].
Proof.
  intros Hl Hn. unfold keep_last. rewrite length_app. simpl.
  replace (length l + 1 - n)%nat with 1%nat by lia.
  rewrite drop_app. replace (1 - length l)%nat with 0%nat by lia. done.
Qed.

(** One [HistoryAdd] on a well-formed ring: the entries are the last
    [CONSOLE_HISTORY_SIZE] of the old entries followed by the new one, and
    both the count and the recall cursor are their number. *)
Lemma HistoryAdd_spec src c :
  history_wf c → length src = CONSOLE_INPUT_SIZE →
  let entries' := keep_last CONSOLE_HISTORY_SIZE (history_entries c ++ [src]) in
  let count' := Z.of_nat (length entries') in
  HistoryAdd src c =
    Some (set_consoleHistoryIndex count'
            (set_consoleHistoryCount count'
               (set_consoleHistory
                  (entries' ++ drop (length entries') (_consoleHistory c)) c))).
Proof.
  intros (Hpos & Hlen & Hsize & Hcount) Hsrc entries' count'.
  subst count' entries'. unfold history_entries, HistoryAdd.
  set (history := _consoleHistory c) in *.
  destruct (Z_of_nat_complete (_consoleHistoryCount c) ltac:(lia)) as [n Hn].
  rewrite Hn in *. rewrite Nat2Z.id.
  destruct (decide (Z.of_nat n >= Z.of_nat CONSOLE_HISTORY_SIZE)) as [Hfull|Hroom].
  - assert (n = CONSOLE_HISTORY_SIZE) as -> by lia.
    rewrite take_ge by lia.
    rewrite keep_last_snoc_full by done.
    rewrite length_app, length_drop, Hlen. simpl length.
    replace (CONSOLE_HISTORY_SIZE - 1 + 1)%nat with CONSOLE_HISTORY_SIZE by lia.
    rewrite (drop_ge history CONSOLE_HISTORY_SIZE) by lia. rewrite app_nil_r.
    replace (Z.to_nat (Z.of_nat CONSOLE_HISTORY_SIZE - 1))
      with (CONSOLE_HISTORY_SIZE - 1)%nat by lia.
    rewrite (HistoryAdd_shift_spec _ 0%nat) by (done || lia).
    simpl. rewrite (take_ge (drop 1 history)) by (rewrite length_drop; lia).
    assert (∃ z, drop (CONSOLE_HISTORY_SIZE - 1) history = [z]) as [z Hz].
    { destruct (drop (CONSOLE_HISTORY_SIZE - 1) history) as [|z [|]] eqn:E;
        apply (f_equal length) in E; rewrite length_drop in E; simpl in E;
        [lia | eauto | lia]. }
    assert (Hzlen : length z = CONSOLE_INPUT_SIZE).
    { apply (proj1 (Forall_forall _ _) Hsize).
      rewrite <-(take_drop (CONSOLE_HISTORY_SIZE - 1) history), Hz.
      apply elem_of_app. right. apply list_elem_of_singleton. done. }
    rewrite Hz.
    replace (Z.of_nat CONSOLE_HISTORY_SIZE - 1)
      with (Z.of_nat (CONSOLE_HISTORY_SIZE - 1)) by lia.
    rewrite array_get_nat.
    rewrite lookup_app_r by (rewrite length_drop; lia).
    rewrite length_drop, Hlen, Nat.sub_diag. simpl.
    rewrite array_set_nat by (rewrite length_app, length_drop; simpl; lia).
    simpl.
    rewrite insert_app_r_alt by (rewrite length_drop; lia).
    rewrite length_drop, Hlen, Nat.sub_diag. simpl.
    rewrite memcpy_whole by done.
    by replace (Z.of_nat (CONSOLE_HISTORY_SIZE - 1) + 1)
      with (Z.of_nat CONSOLE_HISTORY_SIZE) by lia.
  - assert (Hn' : (n < CONSOLE_HISTORY_SIZE)%nat) by lia.
    rewrite keep_last_short by (rewrite length_app, length_take; simpl; lia).
    rewrite length_app, length_take. simpl length.
    replace (n `min` length history)%nat with n by lia.
    simpl. fold history. rewrite Hn, array_get_nat.
    destruct (lookup_lt_is_Some_2 history n ltac:(lia)) as [dst Hdst].
    rewrite Hdst. simpl. rewrite array_set_nat by lia. simpl.
    rewrite memcpy_whole; [|by eapply (Forall_lookup_1 _ _ _ _ Hsize)|done].
    rewrite insert_take_drop by lia.
    rewrite <-app_assoc. simpl.
    replace (n + 1)%nat with (S n) by lia.
    by replace (Z.of_nat n + 1) with (Z.of_nat (S n)) by lia.
Qed.

Lemma history_entries_length c :
  history_wf c → Z.of_nat (length (history_entries c)) = _consoleHistoryCount c.
Proof.
  intros (Hpos & Hlen & Hsize & Hcount). unfold history_entries.
  rewrite length_take. lia.
Qed.

Lemma HistoryAdd_wf src c c' :
  history_wf c → length src = CONSOLE_INPUT_SIZE →
  HistoryAdd src c = Some c' →
  history_wf c' ∧
  history_entries c' = keep_last CONSOLE_HISTORY_SIZE (history_entries c ++ [src]) ∧
  _consoleHistoryIndex c' = _consoleHistoryCount c'.
Proof.
  intros Hwf Hsrc Hadd. rewrite HistoryAdd_spec in Hadd by done.
  injection Hadd as <-.
  destruct Hwf as (Hpos & Hlen & Hsize & Hcount).
  set (entries' := keep_last CONSOLE_HISTORY_SIZE (history_entries c ++ [src])).
  pose proof (keep_last_length CONSOLE_HISTORY_SIZE (history_entries c ++ [src])) as Hle.
  fold entries' in Hle.
  assert (Hsizes : Forall (λ entry, length entry = CONSOLE_INPUT_SIZE) entries').
  { apply Forall_drop, Forall_app. split; [by apply Forall_take|].
    by apply Forall_singleton. }
  split; [|split; [|done]].
  - unfold history_wf. simpl. split; [done|]. split; [|split].
    + rewrite length_app, length_drop. lia.
    + apply Forall_app. split; [done|]. by apply Forall_drop.
    + lia.
  - unfold history_entries at 1. simpl. rewrite Nat2Z.id.
    by rewrite take_app_length.
Qed.

Lemma HistoryAdd_all_spec srcs : ∀ c,
  history_wf c → Forall (λ src, length src = CONSOLE_INPUT_SIZE) srcs →
  ∃ c', HistoryAdd_all srcs c = Some c' ∧ history_wf c' ∧
        history_entries c' = keep_last CONSOLE_HISTORY_SIZE (history_entries c ++ srcs).
Proof.
  induction srcs as [|src srcs IH]; intros c Hwf Hsrcs; simpl.
  - exists c. split; [done|]. split; [done|].
    rewrite app_nil_r, keep_last_short; [done|].
    pose proof (history_entries_length c Hwf). destruct Hwf as (_ & _ & _ & ?). lia.
  - apply Forall_cons in Hsrcs as [Hsrc Hsrcs].
    rewrite HistoryAdd_spec by done. simpl.
    destruct (HistoryAdd_wf src c _ Hwf Hsrc (HistoryAdd_spec src c Hwf Hsrc))
      as (Hwf' & Hentries & _).
    destruct (IH _ Hwf' Hsrcs) as (c' & Hrun & Hwf'' & Hentries').
    exists c'. split; [done|]. split; [done|].
    by rewrite Hentries', Hentries, keep_last_app, <-app_assoc.
Qed.

(** C4.  On a well-formed ring of capacity [CONSOLE_HISTORY_SIZE], after
    every sequence of [HistoryAdd] calls that ends with the command [src],
    the ring holds at most [CONSOLE_HISTORY_SIZE] entries: the most
    recently added ones, in insertion order, the oldest ones dropped from
    index 0; and the recall cursor equals the count, the number of the
    entries. *)
Theorem HistoryAdd_all_keeps_most_recent srcs src c :
  history_wf c →
  Forall (λ src, length src = CONSOLE_INPUT_SIZE) (srcs ++ [src]) →
  ∃ c', HistoryAdd_all (srcs ++ [src]) c = Some c' ∧
        history_entries c' =
          drop (length (history_entries c ++ srcs ++ [src]) - CONSOLE_HISTORY_SIZE)
            (history_entries c ++ srcs ++ [src]) ∧
        (length (history_entries c') ≤ CONSOLE_HISTORY_SIZE)%nat ∧
        _consoleHistoryCount c' = Z.of_nat (length (history_entries c')) ∧
        _consoleHistoryIndex c' = Z.of_nat (length (history_entries c')).
Proof.
  intros Hwf Hsrcs.
  apply Forall_app in Hsrcs as [Hsrcs Hsrc]. rewrite Forall_singleton in Hsrc.
  destruct (HistoryAdd_all_spec srcs c Hwf Hsrcs) as (c1 & Hrun & Hwf1 & Hentries1).
  destruct (HistoryAdd src c1) as [c2|] eqn:Hadd;
    [|by rewrite HistoryAdd_spec in Hadd].
  destruct (HistoryAdd_wf src c1 c2 Hwf1 Hsrc Hadd) as (Hwf2 & Hentries2 & Hindex).
  rewrite Hentries1, keep_last_app, <-app_assoc in Hentries2.
  exists c2. split.
  { assert (Happ : ∀ l1 l2 c0 c1, HistoryAdd_all l1 c0 = Some c1 →
              HistoryAdd_all (l1 ++ l2) c0 = HistoryAdd_all l2 c1).
    { induction l1 as [|a l1 IHl]; intros l2 c0 c1' Hc; simpl in *; [by injection Hc as ->|].
      destruct (HistoryAdd a c0); simpl in *; [by apply IHl|done]. }
    rewrite (Happ _ _ _ _ Hrun). simpl. by rewrite Hadd. }
  split; [exact Hentries2|].
  split; [rewrite Hentries2; apply keep_last_length|].
  by rewrite Hindex, (history_entries_length _ Hwf2).
Qed.

End History.

Section Recall.
Context `{ConsoleLimits} `{Host}.

Lemma history_wf_recall_ready c :
  history_wf c → is_Some (_consoleTextInputSession c) → recall_ready c.
Proof. intros (Hpos & Hlen & Hsize & Hcount) Hsession. split; [lia|done]. Qed.

Lemma update_session_Some c :
  is_Some (_consoleTextInputSession c) →
  ∃ session, update_session c = Some (set_consoleTextInputSession (Some session) c).
Proof. intros [session Hs]. unfold update_session. rewrite Hs. simpl. eauto. Qed.

Lemma array_get_is_Some {A} (a : list A) i :
  0 ≤ i < Z.of_nat (length a) → is_Some (array_get a i).
Proof.
  intros Hi. unfold array_get. rewrite decide_True by lia.
  apply lookup_lt_is_Some_2. lia.
Qed.

(** One step back from a cursor above 0. *)
Lemma HistoryPrevious_step c :
  recall_ready c → 0 < _consoleHistoryIndex c ≤ _consoleHistoryCount c →
  ∃ c', Input HistoryPrevious c = Some c' ∧ recall_ready c' ∧
        _consoleHistoryIndex c' = _consoleHistoryIndex c - 1 ∧
        _consoleHistoryCount c' = _consoleHistoryCount c ∧
        _consoleHistory c' = _consoleHistory c.
Proof.
  intros [Hcount Hsession] Hindex. unfold Input.
  rewrite decide_True by lia. simpl.
  destruct (array_get_is_Some (_consoleHistory c) (_consoleHistoryIndex c - 1)
              ltac:(lia)) as [entry Hentry].
  rewrite Hentry. simpl.
  edestruct update_session_Some as [session ->]; [exact Hsession|].
  eexists. split; [done|]. simpl. split; [|done].
  split; simpl; [lia|eauto].
Qed.

(** One step forward from a cursor below the newest entry. *)
Lemma HistoryNext_step c :
  recall_ready c → 0 ≤ _consoleHistoryIndex c < _consoleHistoryCount c - 1 →
  ∃ c', Input HistoryNext c = Some c' ∧ recall_ready c' ∧
        _consoleHistoryIndex c' = _consoleHistoryIndex c + 1 ∧
        _consoleHistoryCount c' = _consoleHistoryCount c ∧
        _consoleHistory c' = _consoleHistory c.
Proof.
  intros [Hcount Hsession] Hindex. unfold Input.
  rewrite decide_True by lia. simpl.
  destruct (array_get_is_Some (_consoleHistory c) (_consoleHistoryIndex c + 1)
              ltac:(lia)) as [entry Hentry].
  rewrite Hentry. simpl.
  edestruct update_session_Some as [session ->]; [exact Hsession|].
  eexists. split; [done|]. simpl. split; [|done].
  split; simpl; [lia|eauto].
Qed.

Lemma c_str_cleared buf : c_str (<[0%nat := NUL]> buf) = EmptyString.
Proof. by destruct buf. Qed.

(** The step forward from the newest entry (or from the fresh line) leaves
    recall and empties the edit line. *)
Lemma HistoryNext_last c :
  _consoleHistoryCount c - 1 ≤ _consoleHistoryIndex c →
  ∃ c', Input HistoryNext c = Some c' ∧ fresh_line c' ∧
        _consoleHistoryCount c' = _consoleHistoryCount c ∧
        _consoleHistory c' = _consoleHistory c.
Proof.
  intros Hindex. unfold Input. rewrite decide_False by lia.
  eexists. split; [done|]. unfold fresh_line, ClearInput. simpl.
  destruct (_isOpen c); simpl; by rewrite c_str_cleared.
Qed.

Lemma HistoryPrevious_repeat k : ∀ c,
  recall_ready c → Z.of_nat k ≤ _consoleHistoryIndex c ≤ _consoleHistoryCount c →
  ∃ c', Input_repeat k HistoryPrevious c = Some c' ∧ recall_ready c' ∧
        _consoleHistoryIndex c' = _consoleHistoryIndex c - Z.of_nat k ∧
        _consoleHistoryCount c' = _consoleHistoryCount c ∧
        _consoleHistory c' = _consoleHistory c.
Proof.
  induction k as [|k IH]; intros c Hready Hindex.
  - exists c. simpl. repeat split; (done || lia || apply Hready).
  - destruct (HistoryPrevious_step c Hready ltac:(lia))
      as (c1 & Hstep & Hready1 & Hi1 & Hc1 & Hh1).
    destruct (IH c1 Hready1 ltac:(lia)) as (c' & Hrun & Hready' & Hi' & Hc' & Hh').
    exists c'. cbn [Input_repeat]. rewrite Hstep. simpl.
    split; [done|]. split; [done|]. split; [lia|]. split; congruence.
Qed.

Lemma HistoryNext_repeat k : ∀ c,
  recall_ready c →
  0 ≤ _consoleHistoryIndex c →
  _consoleHistoryIndex c = _consoleHistoryCount c - Z.of_nat (S k) →
  ∃ c', Input_repeat (S k) HistoryNext c = Some c' ∧ fresh_line c' ∧
        _consoleHistoryCount c' = _consoleHistoryCount c ∧
        _consoleHistory c' = _consoleHistory c.
Proof.
  induction k as [|k IH]; intros c Hready Hnonneg Hindex.
  - destruct (HistoryNext_last c ltac:(lia)) as (c' & Hstep & Hfresh & Hc' & Hh').
    exists c'. cbn [Input_repeat]. rewrite Hstep. by simpl.
  - destruct (HistoryNext_step c Hready ltac:(lia))
      as (c1 & Hstep & Hready1 & Hi1 & Hc1 & Hh1).
    destruct (IH c1 Hready1 ltac:(lia) ltac:(lia)) as (c' & Hrun & Hfresh & Hc' & Hh').
    exists c'. change (Input_repeat (S (S k)) HistoryNext c)
      with (Input HistoryNext c ≫= Input_repeat (S k) HistoryNext).
    rewrite Hstep. simpl. split; [done|]. split; [done|]. split; congruence.
Qed.

(** C7.  On an open console whose recall cursor is at the fresh line
    (cursor = count), [k] presses of HistoryPrevious with [k] at most the
    history length, then [k] presses of HistoryNext, end in the fresh-line
    state: the cursor equals the count and the edit line is empty; the
    history itself is untouched.  For [k = 0] nothing is pressed, so the
    edit line has to be empty at the start, as it is in the fresh-line
    state. *)
Theorem HistoryPrevious_then_HistoryNext k c :
  history_wf c →
  is_Some (_consoleTextInputSession c) →
  _consoleHistoryIndex c = _consoleHistoryCount c →
  (1 ≤ k)%nat ∨ c_str (_consoleCurrentLine c) = EmptyString →
  Z.of_nat k ≤ _consoleHistoryCount c →
  ∃ c1 c2,
    Input_repeat k HistoryPrevious c = Some c1 ∧
    _consoleHistoryIndex c1 = _consoleHistoryCount c - Z.of_nat k ∧
    Input_repeat k HistoryNext c1 = Some c2 ∧
    fresh_line c2 ∧
    history_entries c2 = history_entries c.
Proof.
  intros Hwf Hsession Hcursor Hempty Hk.
  pose proof (history_wf_recall_ready c Hwf Hsession) as Hready.
  destruct (HistoryPrevious_repeat k c Hready ltac:(lia))
    as (c1 & Hprev & Hready1 & Hi1 & Hc1 & Hh1).
  exists c1. destruct k as [|k].
  - exists c. simpl in *. injection Hprev as <-.
    destruct Hempty as [?|Hempty]; [lia|].
    repeat split; (done || lia).
  - destruct (HistoryNext_repeat k c1 Hready1 ltac:(lia) ltac:(lia))
      as (c2 & Hnext & Hfresh & Hc2 & Hh2).
    exists c2. split; [done|]. split; [lia|]. split; [done|]. split; [done|].
    unfold history_entries. congruence.
Qed.

End Recall.

Section Execute.
Context `{ConsoleLimits} `{Host}.

(** C8 (amended).  With an empty edit line (its first byte is the
    terminator) LineExecute adds nothing to the history, does not run the
    executor and writes no prompt; it still scrolls to the end, so the
    scroll offset is the one field that may change. *)
Theorem LineExecute_empty_line c :
  hd NUL (_consoleCurrentLine c) = NUL →
  Input LineExecute c = Some (ScrollToEnd c) ∧
  ScrollToEnd c =
    set_consoleScrollPos
      (if decide (GetNumVisibleLines c = 0) then 0
       else Z.max 0 (numLines c - GetNumVisibleLines c)) c.
Proof.
  intros Hempty. unfold Input. rewrite decide_False by (by intros ?).
  split; [done|]. unfold ScrollToEnd. by case_decide.
Qed.

Lemma back_append_spec text c before lastLine :
  _consoleLines c = before ++ [lastLine] →
  back_append text c = Some (set_consoleLines (before ++ [lastLine +:+ text]) c).
Proof.
  intros Hlines. unfold back_append.
  rewrite Hlines, reverse_app, reverse_singleton. simpl.
  by rewrite reverse_involutive.
Qed.

Lemma nonempty_snoc {A} (l : list A) : l ≠ [] → ∃ before x, l = before ++ [x].
Proof.
  intros Hne. destruct (reverse l) as [|x rest] eqn:Hrev.
  - apply (f_equal reverse) in Hrev. rewrite reverse_involutive in Hrev. done.
  - exists (reverse rest), x.
    apply (f_equal reverse) in Hrev.
    by rewrite reverse_involutive, reverse_cons in Hrev.
Qed.

(** C1.  With a non-empty edit line, LineExecute first adds the line to the
    history, then appends its text to the last scrollback line, then runs
    the executor on the console in that state, then writes the prompt
    line, then clears the edit line, and scrolls to the end last: the
    final offset is computed from the scrollback that already holds the
    new prompt. *)
Theorem LineExecute_steps c :
  hd NUL (_consoleCurrentLine c) ≠ NUL →
  history_wf c →
  length (_consoleCurrentLine c) = CONSOLE_INPUT_SIZE →
  _consoleLines c ≠ [] →
  let line := _consoleCurrentLine c in
  ∃ c1 c2 before promptLine,
    HistoryAdd line c = Some c1 ∧
    history_entries c1 = keep_last CONSOLE_HISTORY_SIZE (history_entries c ++ [line]) ∧
    _consoleLines c = before ++ [promptLine] ∧
    back_append (c_str line) c1 = Some c2 ∧
    _consoleLines c2 = before ++ [promptLine +:+ c_str line] ∧
    let c3 := Execute (c_str line) c2 in
    let c4 := WritePrompt c3 in
    _consoleLines c4 = keep_last CONSOLE_MAX_LINES (_consoleLines c3 ++ ["> "]) ∧
    let c5 := RefreshCaret 0 (ClearInput c4) in
    c_str (_consoleCurrentLine c5) = EmptyString ∧
    Input LineExecute c = Some (ScrollToEnd c5) ∧
    _consoleLines (ScrollToEnd c5) = _consoleLines c4 ∧
    _consoleScrollPos (ScrollToEnd c5) =
      if decide (GetNumVisibleLines c3 = 0) then 0
      else Z.max 0 (Z.of_nat (length (_consoleLines c4)) - GetNumVisibleLines c3).
Proof.
  intros Hline Hwf Hsize Hlines line.
  destruct (HistoryAdd line c) as [c1|] eqn:Hadd;
    [|by rewrite HistoryAdd_spec in Hadd].
  destruct (HistoryAdd_wf line c c1 Hwf Hsize Hadd) as (Hwf1 & Hentries1 & _).
  assert (Hsame : _consoleLines c1 = _consoleLines c ∧
                  _consoleCurrentLine c1 = line).
  { rewrite HistoryAdd_spec in Hadd by done. by injection Hadd as <-. }
  destruct Hsame as [Hlines1 Hline1].
  destruct (nonempty_snoc _ Hlines) as (before & promptLine & Hsnoc).
  pose proof (back_append_spec (c_str line) c1 before promptLine
                ltac:(congruence)) as Hecho.
  exists c1, (set_consoleLines (before ++ [promptLine +:+ c_str line]) c1),
    before, promptLine.
  split; [done|]. split; [done|]. split; [done|]. split; [exact Hecho|].
  split; [done|]. intros c3 c4.
  assert (Hprompt : _consoleLines c4 =
                      keep_last CONSOLE_MAX_LINES (_consoleLines c3 ++ ["> "])).
  { subst c4. unfold WritePrompt, InteractiveConsole_WriteLine.
    by rewrite WriteLine_lines. }
  split; [done|]. intros c5.
  assert (Hc5 : _consoleLines c5 = _consoleLines c4 ∧
                GetNumVisibleLines c5 = GetNumVisibleLines c3).
  { subst c5 c4. unfold WritePrompt, InteractiveConsole_WriteLine.
    rewrite (WriteLine_set_lines _ _ c3). unfold ClearInput, RefreshCaret. simpl.
    by destruct (_isOpen c3). }
  destruct Hc5 as [Hlines5 Hvisible5].
  split.
  { subst c5. unfold RefreshCaret, ClearInput. simpl.
    destruct (_isOpen c4); simpl; apply c_str_cleared. }
  split.
  { unfold Input. rewrite decide_True by done. fold line.
    rewrite Hadd. simpl. rewrite Hline1, Hecho. simpl. by rewrite Hline1. }
  unfold ScrollToEnd. rewrite Hvisible5. unfold numLines. rewrite Hlines5.
  by case_decide.
Qed.

End Execute.

(** * Further properties of the code *)

Section ScrollingMore.
Context `{Host}.

Lemma set_consoleScrollPos_same c : set_consoleScrollPos (_consoleScrollPos c) c = c.
Proof. by destruct c. Qed.

(** X1.  Scrolling to the end twice is the same as scrolling to the end
    once, and it leaves the offset in range whatever it was. *)
Theorem ScrollToEnd_idempotent c :
  ScrollToEnd (ScrollToEnd c) = ScrollToEnd c ∧ scroll_in_range (ScrollToEnd c).
Proof.
  split; [|apply ScrollToEnd_in_range].
  unfold ScrollToEnd.
  destruct (decide (GetNumVisibleLines c = 0)) as [Hz|Hnz].
  - change (GetNumVisibleLines (set_consoleScrollPos 0 c)) with (GetNumVisibleLines c).
    by rewrite decide_True by done.
  - change (GetNumVisibleLines (set_consoleScrollPos (Z.max 0 (numLines c - GetNumVisibleLines c)) c))
      with (GetNumVisibleLines c).
    by rewrite decide_False by done.
Qed.

(** X2.  When at least one line is visible and the scrollback is not
    empty, [ScrollToEnd] puts the newest line inside the window, and the
    window ends exactly at the newest line. *)
Theorem ScrollToEnd_shows_newest_line c :
  0 < GetNumVisibleLines c →
  _consoleLines c ≠ [] →
  let pos := _consoleScrollPos (ScrollToEnd c) in
  0 ≤ pos ≤ numLines c - 1 ∧
  numLines c - 1 < pos + GetNumVisibleLines c ∧
  pos + Z.min (GetNumVisibleLines c) (numLines c) = numLines c.
Proof.
  intros Hv Hne pos. subst pos. unfold ScrollToEnd.
  rewrite decide_False by lia. simpl.
  assert (0 < numLines c).
  { unfold numLines. destruct (_consoleLines c); [done|]. simpl. lia. }
  lia.
Qed.

(** X3.  On a console with more lines than are visible and an offset that
    is not negative, [Scroll] by any delta from the offset up to the largest
    [int32_t] stops at the oldest line (offset 0); and when the visible line
    count is not 0, [Scroll] by any delta of at most
    [offset − (lines − visible)] whose subtraction from the offset stays
    below 2^31 gives the same console as [ScrollToEnd]. *)
Theorem Scroll_reaches_both_ends c :
  0 ≤ _consoleScrollPos c →
  numLines c > GetNumVisibleLines c →
  GetNumVisibleLines c ≠ 0 →
  (∀ delta, _consoleScrollPos c ≤ delta < 2 ^ 31 →
     _consoleScrollPos (Scroll delta c) = 0) ∧
  (∀ delta, delta ≤ _consoleScrollPos c - (numLines c - GetNumVisibleLines c) →
     _consoleScrollPos c - delta < 2 ^ 31 →
     Scroll delta c = ScrollToEnd c).
Proof.
  intros Hpos Hmore Hv. split.
  - intros delta Hdelta. unfold Scroll. rewrite decide_True by done. simpl.
    rewrite wrap_int32_small by lia. unfold clamp. repeat case_decide; lia.
  - intros delta Hdelta Hfits. unfold Scroll, ScrollToEnd.
    rewrite decide_True by done. rewrite decide_False by done. f_equal.
    rewrite wrap_int32_small by lia. unfold clamp. repeat case_decide; lia.
Qed.

Lemma Scroll_more delta c :
  numLines c > GetNumVisibleLines c →
  Scroll delta c =
    set_consoleScrollPos
      (clamp (wrap_int32 (_consoleScrollPos c - delta)) 0
         (numLines c - GetNumVisibleLines c)) c.
Proof. intros Hmore. unfold Scroll. by rewrite decide_True by done. Qed.

Lemma clamp_inside v lo hi : lo ≤ v ≤ hi → clamp v lo hi = v.
Proof. intros. unfold clamp. repeat case_decide; lia. Qed.

(** A scroll that does not hit either end is undone by the opposite one. *)
Lemma Scroll_undo delta c :
  numLines c > GetNumVisibleLines c →
  numLines c - GetNumVisibleLines c < 2 ^ 31 →
  0 ≤ _consoleScrollPos c ≤ numLines c - GetNumVisibleLines c →
  0 ≤ _consoleScrollPos c - delta ≤ numLines c - GetNumVisibleLines c →
  Scroll (- delta) (Scroll delta c) = c.
Proof.
  intros Hmore Hfits Hpos Hroom. rewrite (Scroll_more delta c) by done.
  rewrite wrap_int32_small by lia. rewrite clamp_inside by done.
  rewrite Scroll_more by exact Hmore.
  change (set_consoleScrollPos
            (clamp (wrap_int32 (_consoleScrollPos c - delta - - delta)) 0
               (numLines c - GetNumVisibleLines c)) c = c).
  replace (_consoleScrollPos c - delta - - delta) with (_consoleScrollPos c) by lia.
  rewrite wrap_int32_small by lia. rewrite clamp_inside by lia.
  by destruct c.
Qed.

(** X4.  On a console that shows at least one line, holds fewer than 2^31
    lines and has its offset between [visible − 1] and [lines − visible]
    (the page back does not pass the oldest line and the offset is not past
    the end), a page back followed by a page forward returns to the same
    console. *)
Theorem ScrollPrevious_then_ScrollNext `{ConsoleLimits} c :
  0 < GetNumVisibleLines c →
  numLines c < 2 ^ 31 →
  GetNumVisibleLines c - 1 ≤ _consoleScrollPos c ≤ numLines c - GetNumVisibleLines c →
  Input ScrollPrevious c ≫= Input ScrollNext = Some c.
Proof.
  intros Hv Hfits Hroom. simpl. rewrite Scroll_visible. f_equal.
  destruct (decide (numLines c > GetNumVisibleLines c)) as [Hmore|Hle].
  - apply Scroll_undo; [done|lia|lia|lia].
  - rewrite (Scroll_fits _ c) by lia. apply Scroll_fits. lia.
Qed.

(** X5.  [Clear] empties the scrollback; with a visible line count that is
    not negative the offset is 0 afterwards and no [Scroll] moves it. *)
Theorem Clear_resets_scroll c :
  0 ≤ GetNumVisibleLines c →
  _consoleLines (Clear c) = [] ∧
  _consoleScrollPos (Clear c) = 0 ∧
  ∀ delta, Scroll delta (Clear c) = Clear c.
Proof.
  intros Hv. unfold Clear, ScrollToEnd.
  change (GetNumVisibleLines (set_consoleLines [] c)) with (GetNumVisibleLines c).
  destruct (decide (GetNumVisibleLines c = 0)) as [Hz|Hnz].
  - split; [done|]. split; [done|]. intros delta. unfold Scroll.
    rewrite decide_False; [done|]. 
    change (¬ 0 > GetNumVisibleLines c). lia.
  - split; [done|]. split; [simpl; unfold numLines; simpl; lia|].
    intros delta. unfold Scroll. rewrite decide_False; [done|].
    change (¬ 0 > GetNumVisibleLines c). lia.
Qed.

End ScrollingMore.

Section ScrollbackMore.
Context `{ConsoleLimits}.

Lemma keep_last_length_min {A} n (l : list A) :
  length (keep_last n l) = (n `min` length l)%nat.
Proof. unfold keep_last. rewrite length_drop. lia. Qed.

(** X6.  After [WriteLine] the scrollback holds the lines it held, plus one
    per newline character of the text, plus one, up to the cap. *)
Theorem WriteLine_line_count input colourFormat c :
  length (_consoleLines (WriteLine input colourFormat c)) =
    (CONSOLE_MAX_LINES `min`
       (length (_consoleLines c) + count_newlines input + 1))%nat.
Proof.
  rewrite WriteLine_lines, keep_last_length_min, length_app.
  unfold appended_lines. rewrite length_map, segments_length. lia.
Qed.

Lemma eqb_newline ch : Ascii.eqb ch newline = true → ch = newline.
Proof. apply Ascii.eqb_eq. Qed.

Lemma join_lines_cons line rest :
  rest ≠ [] → join_lines (line :: rest) = line +:+ String newline (join_lines rest).
Proof. by destruct rest. Qed.

Lemma join_segments s : join_lines (segments_spec s) = s.
Proof.
  induction s as [|ch s IH]; [done|]. simpl.
  pose proof (segments_nonempty s) as Hne.
  destruct (Ascii.eqb ch newline) eqn:Hch.
  - apply eqb_newline in Hch as ->.
    rewrite join_lines_cons by done. by rewrite IH.
  - destruct (segments_spec s) as [|seg segs]; [done|].
    destruct segs as [|seg' segs].
    + simpl in *. by rewrite IH.
    + rewrite join_lines_cons by done. rewrite join_lines_cons in IH by done.
      rewrite append_String. by rewrite IH.
Qed.

Lemma segments_no_newline s : Forall (λ seg, has_newline seg = false) (segments_spec s).
Proof.
  induction s as [|ch s IH]; simpl; [by repeat constructor|].
  destruct (Ascii.eqb ch newline) eqn:Hch.
  - by constructor.
  - destruct (segments_spec s) as [|seg segs];
      [constructor; [simpl; by rewrite Hch|constructor]|].
    apply Forall_cons in IH as [Hseg Hsegs].
    constructor; [|done]. simpl. by rewrite Hch.
Qed.

Lemma has_newline_app s t : has_newline (s +:+ t) = has_newline s || has_newline t.
Proof.
  induction s as [|ch s IH]; [done|].
  rewrite append_String. simpl. rewrite IH. by rewrite orb_assoc.
Qed.

(** X7.  The splitting loop of [WriteLine] loses and adds nothing: written
    with the default colour into an empty scrollback, the lines joined with
    newline characters are the text again; and with any colour no line it
    appends contains a newline character. *)
Theorem WriteLine_loop_round_trip input colourFormat :
  join_lines (WriteLine_loop input (colourCodepoint_of ColourWindow2) 0 []) = input ∧
  Forall (λ line, has_newline line = false)
    (WriteLine_loop input (colourCodepoint_of colourFormat) 0 []).
Proof.
  rewrite !WriteLine_loop_appended. simpl. split.
  - unfold appended_lines. simpl.
    rewrite (map_ext _ id), map_id; [apply join_segments|done].
  - unfold appended_lines. apply Forall_map.
    eapply Forall_impl; [apply segments_no_newline|].
    intros seg Hseg. simpl. rewrite has_newline_app, Hseg.
    unfold colourCodepoint_of. by case_decide.
Qed.

Lemma keep_last_snoc_last {A} n (l : list A) v :
  (1 ≤ n)%nat → last (keep_last n (l ++ [v])) = Some v.
Proof.
  intros Hn. unfold keep_last. rewrite length_app. simpl.
  rewrite drop_app_le by lia. by rewrite last_snoc.
Qed.

Lemma WritePrompt_last c :
  (1 ≤ CONSOLE_MAX_LINES)%nat → last (_consoleLines (WritePrompt c)) = Some "> "%string.
Proof.
  intros Hcap. unfold WritePrompt, InteractiveConsole_WriteLine.
  rewrite WriteLine_lines. by apply keep_last_snoc_last.
Qed.

(** X8.  With a cap of at least one line, [WritePrompt] leaves the prompt
    as the newest scrollback line, keeps the older lines in order in front
    of it, and changes nothing but the scrollback. *)
Theorem WritePrompt_newest_line c :
  (1 ≤ CONSOLE_MAX_LINES)%nat →
  last (_consoleLines (WritePrompt c)) = Some "> "%string ∧
  (∃ dropped, _consoleLines c ++ ["> "%string] = dropped ++ _consoleLines (WritePrompt c)) ∧
  WritePrompt c = set_consoleLines (_consoleLines (WritePrompt c)) c.
Proof.
  intros Hcap.
  assert (Hframe : WritePrompt c = set_consoleLines (_consoleLines (WritePrompt c)) c)
    by exact (WriteLine_set_lines _ _ c).
  split; [by apply WritePrompt_last|]. split; [|exact Hframe].
  unfold WritePrompt, InteractiveConsole_WriteLine.
  rewrite WriteLine_lines.
  change (appended_lines "> " ColourWindow2) with ["> "%string].
  exists (take (length (_consoleLines c ++ ["> "%string]) - CONSOLE_MAX_LINES)
              (_consoleLines c ++ ["> "%string])).
    unfold keep_last. by rewrite take_drop.
Qed.

End ScrollbackMore.

Section InputMore.
Context `{ConsoleLimits} `{Host}.

Lemma ClearInput_eq c :
  ClearInput c = set_consoleCurrentLine (<[0%nat := NUL]> (_consoleCurrentLine c)) c.
Proof. unfold ClearInput. simpl. by destruct (_isOpen c). Qed.

Lemma ScrollToEnd_eq c : ∃ pos, ScrollToEnd c = set_consoleScrollPos pos c.
Proof. unfold ScrollToEnd. case_decide; eauto. Qed.

Lemma length_buffer_of n s : length (buffer_of n s) = n.
Proof.
  unfold buffer_of. rewrite length_take, length_app, length_replicate. lia.
Qed.

(** X9.  LineClear empties the edit line by writing the terminator into its
    first byte: the buffer keeps its size and its other bytes, the caret
    returns to column 0 and shows at once, and scrollback, scroll offset and
    history are untouched. *)
Theorem LineClear_resets_edit_line c :
  ∃ c', Input LineClear c = Some c' ∧
        c_str (_consoleCurrentLine c') = EmptyString ∧
        length (_consoleCurrentLine c') = length (_consoleCurrentLine c) ∧
        drop 1 (_consoleCurrentLine c') = drop 1 (_consoleCurrentLine c) ∧
        _selectionStart c' = 0%nat ∧
        _consoleCaretTicks c' = 0 ∧
        _caretScreenPosX c' =
          GfxGetStringWidthNoFormatting EmptyString InGameConsoleGetFontStyle ∧
        _consoleLines c' = _consoleLines c ∧
        _consoleScrollPos c' = _consoleScrollPos c ∧
        _consoleHistory c' = _consoleHistory c ∧
        _consoleHistoryCount c' = _consoleHistoryCount c ∧
        _consoleHistoryIndex c' = _consoleHistoryIndex c.
Proof.
  eexists. split; [done|]. rewrite ClearInput_eq. unfold RefreshCaret. simpl.
  split; [apply c_str_cleared|]. split; [apply length_insert|].
  split; [by destruct (_consoleCurrentLine c)|]. done.
Qed.

(** X10.  [Toggle] flips the console between open and closed; afterwards the
    text-input session is live exactly when the console is open, and the
    scrollback and the history are as before. *)
Theorem Toggle_flips c :
  _isOpen (Toggle c) = negb (_isOpen c) ∧
  (is_Some (_consoleTextInputSession (Toggle c)) ↔ _isOpen (Toggle c) = true) ∧
  _consoleLines (Toggle c) = _consoleLines c ∧
  history_entries (Toggle c) = history_entries c ∧
  _consoleCurrentLine (Toggle c) = _consoleCurrentLine c.
Proof.
  unfold Toggle. destruct (_isOpen c) eqn:Hopen.
  - unfold Close. simpl. split; [done|]. split; [|done].
    split; [by intros [? ?]|done].
  - unfold Open, RefreshCaret. destruct (ScrollToEnd_eq (set_isOpen true c)) as [pos ->].
    simpl. split; [done|]. split; [|done]. split; [done|eauto].
Qed.

(** X14.  On a console without a text-input session (a closed console)
    HistoryPrevious is undefined whatever the history holds, because it
    stores through the session pointer; HistoryNext is undefined exactly
    when the cursor is below the newest entry (the branch that stores
    through the session), and defined otherwise (the branch that only
    clears the edit line). *)
Theorem History_events_without_session c :
  _consoleTextInputSession c = None →
  Input HistoryPrevious c = None ∧
  (Input HistoryNext c = None ↔ _consoleHistoryIndex c < _consoleHistoryCount c - 1).
Proof.
  intros Hnull. split.
  - unfold Input. case_decide; simpl.
    + destruct (array_get _ _); simpl; [|done].
      unfold update_session. simpl. by rewrite Hnull.
    + unfold update_session. by rewrite Hnull.
  - unfold Input. case_decide; simpl.
    + split; [done|]. intros _.
      destruct (array_get _ _); simpl; [|done].
      unfold update_session. simpl. by rewrite Hnull.
    + split; [done|]. intros ?. lia.
Qed.

(** X18.  No input event takes the scroll offset out of range: Enter ends
    with [ScrollToEnd], the page events clamp, and the others leave the
    offset, the scrollback and the geometry alone. *)
Theorem Input_keeps_scroll_in_range input c c' :
  scroll_in_range c →
  Input input c = Some c' →
  scroll_in_range c'.
Proof.
  intros Hin Hinput. unfold Input in Hinput. destruct input.
  - by injection Hinput as <-.
  - injection Hinput as <-. by rewrite ClearInput_eq.
  - apply bind_Some in Hinput as (c1 & _ & Hend).
    injection Hend as <-. apply ScrollToEnd_in_range.
  - apply bind_Some in Hinput as (c1 & Hload & Hsession).
    assert (Hc1 : scroll_in_range c1).
    { case_decide; [|by injection Hload as <-].
      apply bind_Some in Hload as (entry & _ & Hload). by injection Hload as <-. }
    unfold update_session in Hsession.
    apply bind_Some in Hsession as (session & _ & Hsession).
    by injection Hsession as <-.
  - case_decide.
    + apply bind_Some in Hinput as (entry & _ & Hsession).
      unfold update_session in Hsession.
      apply bind_Some in Hsession as (session & _ & Hsession).
      by injection Hsession as <-.
    + injection Hinput as <-. by rewrite ClearInput_eq.
  - injection Hinput as <-. by apply Scroll_in_range.
  - injection Hinput as <-. by apply Scroll_in_range.
Qed.

End InputMore.

Section Safety.
Context `{ConsoleLimits} `{Host}.

Lemma WritePrompt_eq c : WritePrompt c = set_consoleLines (_consoleLines (WritePrompt c)) c.
Proof. exact (WriteLine_set_lines _ _ c). Qed.

(** What Enter on a non-empty edit line leaves in the fields that the
    history and the edit line live in. *)
Lemma LineExecute_nonempty c :
  console_inv c → Execute_keeps_input →
  hd NUL (_consoleCurrentLine c) ≠ NUL →
  ∃ c1 c' e,
    HistoryAdd (_consoleCurrentLine c) c = Some c1 ∧
    Input LineExecute c = Some c' ∧
    _consoleHistory c' = _consoleHistory c1 ∧
    _consoleHistoryCount c' = _consoleHistoryCount c1 ∧
    _consoleHistoryIndex c' = _consoleHistoryIndex c1 ∧
    _consoleCurrentLine c' = <[0%nat := NUL]> (_consoleCurrentLine c) ∧
    _consoleTextInputSession c' = _consoleTextInputSession c ∧
    _consoleLines c' = _consoleLines (WritePrompt e).
Proof.
  intros (Hwf & Hindex & Hsize & Hsession & Hlines) Hkeep Hline.
  destruct (HistoryAdd (_consoleCurrentLine c) c) as [c1|] eqn:Hadd;
    [|by rewrite HistoryAdd_spec in Hadd].
  assert (Hc1 : _consoleLines c1 = _consoleLines c ∧
                _consoleCurrentLine c1 = _consoleCurrentLine c ∧
                _consoleTextInputSession c1 = _consoleTextInputSession c).
  { rewrite HistoryAdd_spec in Hadd by done. by injection Hadd as <-. }
  destruct Hc1 as (Hlines1 & Hline1 & Hsession1).
  destruct (nonempty_snoc _ Hlines) as (before & promptLine & Hsnoc).
  pose proof (back_append_spec (c_str (_consoleCurrentLine c)) c1 before promptLine
                ltac:(congruence)) as Hecho.
  set (c2 := set_consoleLines (before ++ [promptLine +:+ c_str (_consoleCurrentLine c)]) c1)
    in Hecho.
  set (e := Execute (c_str (_consoleCurrentLine c)) c2).
  destruct (Hkeep (c_str (_consoleCurrentLine c)) c2) as (He1 & He2 & He3 & He4 & He5).
  fold e in He1, He2, He3, He4, He5.
  exists c1, (ScrollToEnd (RefreshCaret 0 (ClearInput (WritePrompt e)))), e.
  split; [done|]. split.
  { unfold Input. rewrite decide_True by done. rewrite Hadd. simpl.
    rewrite Hline1, Hecho. simpl. by rewrite Hline1. }
  destruct (ScrollToEnd_eq (RefreshCaret 0 (ClearInput (WritePrompt e)))) as [pos ->].
  unfold RefreshCaret. rewrite ClearInput_eq, WritePrompt_eq. simpl.
  rewrite He1, He2, He3, He4, He5. subst c2. simpl.
  by rewrite Hline1, Hsession1.
Qed.

Lemma WritePrompt_nonempty c :
  (1 ≤ CONSOLE_MAX_LINES)%nat → _consoleLines (WritePrompt c) ≠ [].
Proof.
  intros Hcap Hnil. apply (f_equal length) in Hnil.
  unfold WritePrompt, InteractiveConsole_WriteLine in Hnil.
  rewrite WriteLine_lines, keep_last_length_min, length_app in Hnil.
  simpl in Hnil. lia.
Qed.

Lemma length_memcpy_entry (line entry : list utf8) n :
  length line = n → length entry = n → length (memcpy line entry n) = n.
Proof. intros Hline Hentry. by rewrite memcpy_whole. Qed.

(** Every action is defined on a console that satisfies the invariant, and
    the console satisfies it afterwards. *)
Lemma act_keeps_inv a c :
  (1 ≤ CONSOLE_MAX_LINES)%nat → Execute_keeps_input →
  console_inv c →
  ∃ c', act a c = Some c' ∧ console_inv c'.
Proof.
  intros Hcap Hkeep Hinv.
  pose proof Hinv as (Hwf & Hindex & Hsize & Hsession & Hlines).
  pose proof Hwf as (Hpos & Hlen & Hsizes & Hcount).
  destruct a as [s|input]; simpl.
  { eexists. split; [done|]. unfold console_inv, history_wf, type_line. simpl.
    by rewrite length_buffer_of. }
  destruct input.
  - eexists. split; [done|]. done.
  - eexists. split; [done|]. simpl. rewrite ClearInput_eq.
    unfold console_inv, history_wf, RefreshCaret. simpl. by rewrite length_insert.
  - destruct (decide (hd NUL (_consoleCurrentLine c) ≠ NUL)) as [Hline|Hline].
    + destruct (LineExecute_nonempty c Hinv Hkeep Hline)
        as (c1 & c' & e & Hadd & Hexec & Hh & Hc & Hi & Hl & Hs & Hlines').
      destruct (HistoryAdd_wf _ c c1 Hwf Hsize Hadd) as (Hwf1 & _ & Hindex1).
      exists c'. split; [done|].
      unfold console_inv, history_wf in *. rewrite Hh, Hc, Hi, Hl, Hs, Hlines'.
      rewrite length_insert.
      split; [done|]. split; [lia|]. split; [done|]. split; [done|].
      by apply WritePrompt_nonempty.
    + eexists. split.
      { simpl. rewrite decide_False by done. done. }
      destruct (ScrollToEnd_eq c) as [pos ->]. done.
  - destruct (decide (_consoleHistoryIndex c > 0)) as [Hgt|Hle].
    + destruct (array_get_is_Some (_consoleHistory c) (_consoleHistoryIndex c - 1)
                  ltac:(lia)) as [entry Hentry].
      destruct Hsession as [session Hsession].
      eexists. split.
      { simpl. rewrite decide_True by done. simpl. rewrite Hentry. simpl.
        unfold update_session. simpl. rewrite Hsession. simpl. done. }
      unfold console_inv, history_wf. simpl.
      split; [done|]. split; [lia|]. split; [|split; [eauto|done]].
      apply length_memcpy_entry; [done|].
      unfold array_get in Hentry. rewrite decide_True in Hentry by lia.
      by eapply (Forall_lookup_1 _ _ _ _ Hsizes).
    + destruct Hsession as [session Hsession].
      eexists. split.
      { simpl. rewrite decide_False by done. simpl.
        unfold update_session. rewrite Hsession. simpl. done. }
      unfold console_inv, history_wf. simpl.
      split; [done|]. split; [lia|]. split; [done|]. split; [eauto|done].
  - destruct (decide (_consoleHistoryIndex c < _consoleHistoryCount c - 1)) as [Hlt|Hge].
    + destruct (array_get_is_Some (_consoleHistory c) (_consoleHistoryIndex c + 1)
                  ltac:(lia)) as [entry Hentry].
      destruct Hsession as [session Hsession].
      eexists. split.
      { simpl. rewrite decide_True by done. simpl. rewrite Hentry. simpl.
        unfold update_session. simpl. rewrite Hsession. simpl. done. }
      unfold console_inv, history_wf. simpl.
      split; [done|]. split; [lia|]. split; [|split; [eauto|done]].
      apply length_memcpy_entry; [done|].
      unfold array_get in Hentry. rewrite decide_True in Hentry by lia.
      by eapply (Forall_lookup_1 _ _ _ _ Hsizes).
    + eexists. split.
      { simpl. rewrite decide_False by done. done. }
      rewrite ClearInput_eq. unfold console_inv, history_wf. simpl.
      rewrite length_insert.
      split; [done|]. split; [lia|]. done.
  - eexists. split; [done|]. unfold Scroll. by case_decide.
  - eexists. split; [done|]. unfold Scroll. by case_decide.
Qed.

(** X11.  On a console that satisfies the invariant of [Input] (well-formed
    history ring with the cursor inside, full-size edit buffer, live
    session, non-empty scrollback), with a scrollback cap of at least one
    line and an interpreter that leaves history, edit line and session
    alone, every sequence of typing and input events is defined: no entry
    of the history array is read out of range, the session pointer is never
    null when it is used and [back()] is never taken of an empty scrollback;
    and the invariant holds at the end. *)
Theorem act_all_defined actions c :
  (1 ≤ CONSOLE_MAX_LINES)%nat →
  Execute_keeps_input →
  console_inv c →
  ∃ c', act_all actions c = Some c' ∧ console_inv c'.
Proof.
  intros Hcap Hkeep. revert c.
  induction actions as [|a actions IH]; intros c Hinv; simpl; [by exists c|].
  destruct (act_keeps_inv a c Hcap Hkeep Hinv) as (c1 & -> & Hinv1). simpl.
  by apply IH.
Qed.

End Safety.

Section RecallMore.
Context `{ConsoleLimits} `{Host}.

(** One step back loads the entry below the cursor into the edit line. *)
Lemma HistoryPrevious_loads c :
  history_wf c →
  0 < _consoleHistoryIndex c ≤ _consoleHistoryCount c →
  length (_consoleCurrentLine c) = CONSOLE_INPUT_SIZE →
  is_Some (_consoleTextInputSession c) →
  ∃ c', Input HistoryPrevious c = Some c' ∧
        history_wf c' ∧
        length (_consoleCurrentLine c') = CONSOLE_INPUT_SIZE ∧
        is_Some (_consoleTextInputSession c') ∧
        _consoleHistoryIndex c' = _consoleHistoryIndex c - 1 ∧
        _consoleHistoryCount c' = _consoleHistoryCount c ∧
        _consoleHistory c' = _consoleHistory c ∧
        _consoleLines c' = _consoleLines c ∧
        _consoleHistory c !! Z.to_nat (_consoleHistoryIndex c - 1)
          = Some (_consoleCurrentLine c').
Proof.
  intros Hwf Hindex Hsize [session Hsession].
  pose proof Hwf as (Hpos & Hlen & Hsizes & Hcount).
  destruct (array_get_is_Some (_consoleHistory c) (_consoleHistoryIndex c - 1)
              ltac:(lia)) as [entry Hentry].
  assert (Hlookup : _consoleHistory c !! Z.to_nat (_consoleHistoryIndex c - 1) = Some entry).
  { unfold array_get in Hentry. by rewrite decide_True in Hentry by lia. }
  assert (Hlength : length entry = CONSOLE_INPUT_SIZE)
    by (by eapply (Forall_lookup_1 _ _ _ _ Hsizes)).
  eexists. split.
  { simpl. rewrite decide_True by lia. simpl. rewrite Hentry. simpl.
    unfold update_session. simpl. rewrite Hsession. simpl. done. }
  simpl. rewrite memcpy_whole by done.
  split; [done|]. split; [done|]. split; [eauto|]. done.
Qed.

Lemma HistoryPrevious_loads_repeat k : ∀ c,
  history_wf c →
  Z.of_nat (S k) ≤ _consoleHistoryIndex c ≤ _consoleHistoryCount c →
  length (_consoleCurrentLine c) = CONSOLE_INPUT_SIZE →
  is_Some (_consoleTextInputSession c) →
  ∃ c', Input_repeat (S k) HistoryPrevious c = Some c' ∧
        _consoleHistoryIndex c' = _consoleHistoryIndex c - Z.of_nat (S k) ∧
        _consoleHistoryCount c' = _consoleHistoryCount c ∧
        _consoleHistory c' = _consoleHistory c ∧
        _consoleLines c' = _consoleLines c ∧
        _consoleHistory c !! Z.to_nat (_consoleHistoryIndex c - Z.of_nat (S k))
          = Some (_consoleCurrentLine c').
Proof.
  induction k as [|k IH]; intros c Hwf Hindex Hsize Hsession.
  - destruct (HistoryPrevious_loads c Hwf ltac:(lia) Hsize Hsession)
      as (c' & Hstep & _ & _ & _ & Hi & Hc & Hh & Hl & Hline).
    exists c'. cbn [Input_repeat]. rewrite Hstep. simpl.
    replace (Z.of_nat 1) with 1 by lia. done.
  - destruct (HistoryPrevious_loads c Hwf ltac:(lia) Hsize Hsession)
      as (c1 & Hstep & Hwf1 & Hsize1 & Hsession1 & Hi & Hc & Hh & Hl & _).
    destruct (IH c1 Hwf1 ltac:(lia) Hsize1 Hsession1)
      as (c' & Hrun & Hi' & Hc' & Hh' & Hl' & Hline').
    exists c'.
    change (Input_repeat (S (S k)) HistoryPrevious c)
      with (Input HistoryPrevious c ≫= Input_repeat (S k) HistoryPrevious).
    rewrite Hstep. simpl.
    split; [done|]. split; [lia|]. split; [congruence|]. split; [congruence|].
    split; [congruence|].
    rewrite <-Hline', Hh, Hi. f_equal. lia.
Qed.

(** X12.  From the fresh line, [k] presses of HistoryPrevious
    ([1 ≤ k ≤] history length) put the [k]-th newest command into the edit
    line, byte for byte, and leave history and scrollback as they are. *)
Theorem HistoryPrevious_recalls_kth_newest k c :
  console_inv c →
  _consoleHistoryIndex c = _consoleHistoryCount c →
  (1 ≤ k)%nat →
  Z.of_nat k ≤ _consoleHistoryCount c →
  ∃ c', Input_repeat k HistoryPrevious c = Some c' ∧
        history_entries c !! (length (history_entries c) - k)%nat
          = Some (_consoleCurrentLine c') ∧
        _consoleHistoryIndex c' = _consoleHistoryCount c - Z.of_nat k ∧
        history_entries c' = history_entries c ∧
        _consoleLines c' = _consoleLines c.
Proof.
  intros (Hwf & Hindex & Hsize & Hsession & Hlines) Hcursor Hk Hcount.
  destruct k as [|k]; [lia|].
  destruct (HistoryPrevious_loads_repeat k c Hwf ltac:(lia) Hsize Hsession)
    as (c' & Hrun & Hi & Hc & Hh & Hl & Hline).
  exists c'. split; [done|].
  pose proof (history_entries_length c Hwf) as Hentries.
  split; [|split; [lia|split; [unfold history_entries; congruence|done]]].
  replace (length (history_entries c)) with (Z.to_nat (_consoleHistoryCount c)) by lia.
  unfold history_entries. rewrite lookup_take_lt by lia.
  rewrite <-Hline. f_equal. lia.
Qed.

Lemma keep_last_snoc_lookup {A} n (l : list A) v :
  (1 ≤ n)%nat →
  keep_last n (l ++ [v]) !! (length (keep_last n (l ++ [v])) - 1)%nat = Some v.
Proof.
  intros Hn. rewrite <-(keep_last_snoc_last n l v Hn), last_lookup.
  f_equal. lia.
Qed.

(** X13.  On a console that satisfies the invariant of [Input], with an
    edit line that is not empty and an interpreter that leaves history,
    edit line and session alone (a command that closes the console, such as
    [hide], does not), Enter followed by HistoryPrevious brings the command
    that was just executed back into the edit line, byte for byte; between
    the two events the console is in the fresh-line state. *)
Theorem LineExecute_then_HistoryPrevious c :
  console_inv c →
  Execute_keeps_input →
  hd NUL (_consoleCurrentLine c) ≠ NUL →
  ∃ c1 c2,
    Input LineExecute c = Some c1 ∧
    fresh_line c1 ∧
    Input HistoryPrevious c1 = Some c2 ∧
    _consoleCurrentLine c2 = _consoleCurrentLine c.
Proof.
  intros Hinv Hkeep Hline.
  pose proof Hinv as (Hwf & Hindex & Hsize & Hsession & Hlines).
  destruct (LineExecute_nonempty c Hinv Hkeep Hline)
    as (a & c1 & e & Hadd & Hexec & Hh & Hc & Hi & Hl & Hs & _).
  destruct (HistoryAdd_wf _ c a Hwf Hsize Hadd) as (Hwfa & Hentries & Hcursor).
  pose proof (history_entries_length a Hwfa) as Hlen.
  assert (Hnewest : _consoleHistory a !! Z.to_nat (_consoleHistoryCount a - 1)
                    = Some (_consoleCurrentLine c) ∧ 1 ≤ _consoleHistoryCount a).
  { destruct Hwfa as (Hpos & _).
    pose proof (keep_last_snoc_lookup CONSOLE_HISTORY_SIZE (history_entries c)
                  (_consoleCurrentLine c) Hpos) as Hlook.
    rewrite <-Hentries in Hlook.
    assert (length (history_entries a) ≠ 0%nat).
    { intros Hz. rewrite Hz in Hlook. by destruct (history_entries a). }
    split; [|lia].
    replace (length (history_entries a)) with (Z.to_nat (_consoleHistoryCount a))
      in Hlook by lia.
    unfold history_entries in Hlook. rewrite lookup_take_lt in Hlook by lia.
    rewrite <-Hlook. f_equal. lia. }
  destruct Hnewest as [Hnewest Hone].
  assert (Hwf1 : history_wf c1) by (unfold history_wf in *; by rewrite Hh, Hc).
  destruct (HistoryPrevious_loads c1 Hwf1 ltac:(lia)
              ltac:(by rewrite Hl, length_insert) ltac:(by rewrite Hs))
    as (c2 & Hstep & _ & _ & _ & _ & _ & _ & _ & Hloaded).
  exists c1, c2. split; [done|]. split.
  { split; [congruence|]. rewrite Hl. apply c_str_cleared. }
  split; [done|].
  rewrite Hh, Hi, Hcursor, Hnewest in Hloaded. by injection Hloaded as <-.
Qed.

Lemma WriteLine_after_only_lines input colourFormat (f : InGameConsole → InGameConsole) c :
  f c = set_consoleLines (_consoleLines (f c)) c →
  WriteLine input colourFormat (f c) =
    set_consoleLines (_consoleLines (WriteLine input colourFormat (f c))) c.
Proof.
  intros Hf. rewrite (WriteLine_set_lines input colourFormat (f c)) at 1.
  generalize (_consoleLines (WriteLine input colourFormat (f c))). intros lines.
  by rewrite Hf.
Qed.

Lemma InGameConsole_ctor_eq c :
  InGameConsole_ctor c = set_consoleLines (_consoleLines (InGameConsole_ctor c)) c.
Proof.
  unfold InGameConsole_ctor, WritePrompt, InteractiveConsole_WriteLine.
  apply (WriteLine_after_only_lines "> " ColourWindow2
           (λ c, WriteLine "" ColourWindow2 (WriteLine _ ColourWindow2
                   (WriteLine OPENRCT2_BANNER ColourWindow2 c)))).
  apply (WriteLine_after_only_lines "" ColourWindow2
           (λ c, WriteLine _ ColourWindow2 (WriteLine OPENRCT2_BANNER ColourWindow2 c))).
  apply (WriteLine_after_only_lines _ ColourWindow2
           (λ c, WriteLine OPENRCT2_BANNER ColourWindow2 c)).
  apply WriteLine_set_lines.
Qed.

(** X19.  The console as start-up leaves it (constructed, then sized by an
    [Update], then opened) satisfies the invariant of [Input], has its
    offset in range, is in the fresh-line state, is open, and shows the
    prompt as its newest line, for every history capacity and scrollback cap
    of at least one. *)
Theorem startup_establishes_invariants width viewPos :
  (1 ≤ CONSOLE_HISTORY_SIZE)%nat →
  (1 ≤ CONSOLE_MAX_LINES)%nat →
  let c := Open (Update width viewPos (InGameConsole_ctor InGameConsole_init)) in
  console_inv c ∧ scroll_in_range c ∧ fresh_line c ∧ _isOpen c = true ∧
  last (_consoleLines c) = Some "> "%string.
Proof.
  intros Hsize Hcap c.
  pose proof (InGameConsole_ctor_eq InGameConsole_init) as Hctor.
  assert (Hlast0 : last (_consoleLines (InGameConsole_ctor InGameConsole_init))
                   = Some "> "%string)
    by (unfold InGameConsole_ctor; by apply WritePrompt_last).
  subst c. revert Hctor Hlast0.
  generalize (_consoleLines (InGameConsole_ctor InGameConsole_init)). intros lines -> Hlast0.
  set (c := Open (Update width viewPos (set_consoleLines lines InGameConsole_init))).
  assert (Hfields : _consoleLines c = lines ∧
                    _consoleHistory c = _consoleHistory InGameConsole_init ∧
                    _consoleHistoryCount c = 0 ∧ _consoleHistoryIndex c = 0 ∧
                    _consoleCurrentLine c = _consoleCurrentLine InGameConsole_init ∧
                    is_Some (_consoleTextInputSession c) ∧ _isOpen c = true).
  { subst c. unfold Open, RefreshCaret.
    destruct (ScrollToEnd_eq (set_isOpen true
                (Update width viewPos (set_consoleLines lines InGameConsole_init))))
      as [pos ->].
    cbn. destruct viewPos; cbn; eauto 10. }
  destruct Hfields as (Hlines & Hh & Hc & Hi & Hl & Hs & Ho).
  pose proof (InGameConsole_init_wf Hsize) as (_ & Hwf2 & Hwf3 & _).
  split; [|split; [apply Open_in_range|split; [|split; [done|by rewrite Hlines]]]].
  - unfold console_inv, history_wf. rewrite Hh, Hc, Hi, Hl, Hlines.
    split; [split; [done|split; [done|split; [done|lia]]]|].
    split; [lia|]. split; [cbn; by rewrite length_replicate|]. split; [done|].
    intros Hnil. by rewrite Hnil in Hlast0.
  - split; [congruence|]. rewrite Hl. cbn.
    destruct CONSOLE_INPUT_SIZE; done.
Qed.

End RecallMore.

Section UpdateMore.

Lemma Update_fields width viewPos c :
  _consoleCaretTicks (Update width viewPos c) = Z.rem (_consoleCaretTicks c + 1) 30 ∧
  _consoleTopLeft (Update width viewPos c) = {| x := 0; y := 0 |} ∧
  _consoleBottomRight (Update width viewPos c) = {| x := width; y := 322 |} ∧
  _consoleLines (Update width viewPos c) = _consoleLines c ∧
  _consoleScrollPos (Update width viewPos c) = _consoleScrollPos c ∧
  _consoleHistory (Update width viewPos c) = _consoleHistory c ∧
  _consoleHistoryCount (Update width viewPos c) = _consoleHistoryCount c ∧
  _consoleCurrentLine (Update width viewPos c) = _consoleCurrentLine c.
Proof.
  unfold Update. cbn. destruct (_isOpen c); [|done].
  destruct viewPos as [pos|]; [|done]. by case_decide.
Qed.

Lemma Update_repeat_fields n width viewPos : ∀ c,
  0 ≤ _consoleCaretTicks c →
  let c' := Update_repeat (S n) width viewPos c in
  _consoleCaretTicks c' = (_consoleCaretTicks c + Z.of_nat (S n)) `mod` 30 ∧
  consoleHeight c' = 322 ∧
  _consoleLines c' = _consoleLines c ∧
  _consoleScrollPos c' = _consoleScrollPos c ∧
  history_entries c' = history_entries c ∧
  _consoleCurrentLine c' = _consoleCurrentLine c.
Proof.
  induction n as [|n IH]; intros c Hticks c'; subst c'.
  - cbn [Update_repeat].
    destruct (Update_fields width viewPos c) as (Ht & Htl & Hbr & Hl & Hp & Hh & Hc & He).
    unfold consoleHeight, history_entries. rewrite Ht, Htl, Hbr, Hl, Hp, Hh, Hc, He.
    rewrite Z.rem_mod_nonneg by lia. done.
  - change (Update_repeat (S (S n)) width viewPos c)
      with (Update_repeat (S n) width viewPos (Update width viewPos c)).
    destruct (Update_fields width viewPos c) as (Ht & Htl & Hbr & Hl & Hp & Hh & Hc & He).
    assert (Hticks1 : 0 ≤ _consoleCaretTicks (Update width viewPos c)).
    { rewrite Ht, Z.rem_mod_nonneg by lia. apply Z.mod_pos_bound. lia. }
    destruct (IH _ Hticks1) as (Ht' & Hheight & Hl' & Hp' & Hh' & He').
    rewrite Ht', Hl', Hp', Hh', He'. split; [|split; [done|]].
    + rewrite Ht, Z.rem_mod_nonneg by lia.
      rewrite Zplus_mod_idemp_l. f_equal. lia.
    + unfold history_entries. by rewrite Hl, Hp, Hh, Hc, He.
Qed.

(** X15.  Frames of [Update] give the console its height of 322, advance the
    caret blink counter by one modulo 30 each (so it stays in [[0, 30)] and
    repeats every 30 frames), and change neither the scrollback nor the
    scroll offset, the history or the edit line. *)
Theorem Update_repeat_blinks n width viewPos c :
  0 ≤ _consoleCaretTicks c →
  let c' := Update_repeat (S n) width viewPos c in
  _consoleCaretTicks c' = (_consoleCaretTicks c + Z.of_nat (S n)) `mod` 30 ∧
  0 ≤ _consoleCaretTicks c' < 30 ∧
  _consoleCaretTicks (Update_repeat (S n + 30) width viewPos c) = _consoleCaretTicks c' ∧
  consoleHeight c' = 322 ∧
  _consoleLines c' = _consoleLines c ∧
  _consoleScrollPos c' = _consoleScrollPos c ∧
  history_entries c' = history_entries c ∧
  _consoleCurrentLine c' = _consoleCurrentLine c.
Proof.
  intros Hticks c'.
  destruct (Update_repeat_fields n width viewPos c Hticks) as (Ht & Hrest).
  fold c' in Ht, Hrest.
  split; [done|]. split; [rewrite Ht; apply Z.mod_pos_bound; lia|]. split; [|done].
  destruct (Update_repeat_fields (n + 30) width viewPos c Hticks) as (Ht30 & _).
  change (S (n + 30)) with (S n + 30)%nat in Ht30. rewrite Ht30, Ht.
  replace (_consoleCaretTicks c + Z.of_nat (S n + 30))
    with (_consoleCaretTicks c + Z.of_nat (S n) + 1 * 30) by lia.
  by rewrite Z_mod_plus_full.
Qed.

End UpdateMore.

Section DrawMore.
Context `{Host} `{DrawHost}.

Lemma to_size_t_nonneg v : 0 ≤ to_size_t v < 2 ^ 64.
Proof. unfold to_size_t. apply Z.mod_pos_bound. lia. Qed.

(** Indexing with an [int32_t] sum converted to [size_t]: a negative sum
    becomes an index above every container size. *)
Lemma array_get_to_size_t {A} (a : list A) z :
  - 2 ^ 32 ≤ z < 2 ^ 32 → Z.of_nat (length a) < 2 ^ 31 →
  array_get a (to_size_t z) = array_get a z.
Proof.
  intros Hz Hlen. unfold to_size_t. destruct (decide (0 ≤ z)) as [Hpos|Hneg].
  - by rewrite Z.mod_small by lia.
  - replace (z `mod` 2 ^ 64) with (z + 2 ^ 64).
    + unfold array_get. rewrite decide_True, decide_False by lia.
      apply lookup_ge_None. lia.
    + symmetry. rewrite <-(Z_mod_plus_full z 1 (2 ^ 64)).
      apply Z.mod_small. lia.
Qed.

(** The loop prints the lines from [i + offset] on while they are inside the
    scrollback. *)
Lemma Draw_lines_inside fmt col c : ∀ fuel (i : nat) coords,
  in_machine_range c →
  0 ≤ _consoleScrollPos c →
  _consoleScrollPos c + drawn_count c ≤ numLines c →
  drawn_count c - Z.of_nat i ≤ Z.of_nat fuel →
  Draw_lines fuel (Z.of_nat i) coords fmt col (GetNumVisibleLines c) c =
    Some (line_calls coords fmt col
            (take (Z.to_nat (drawn_count c - Z.of_nat i))
               (drop (Z.to_nat (Z.of_nat i + _consoleScrollPos c)) (_consoleLines c)))).
Proof.
  intros fuel i coords (Hpos32 & Hn32) Hpos Hfit. revert i coords.
  unfold drawn_count, numLines in *.
  pose proof (to_size_t_nonneg (GetNumVisibleLines c)) as Hv.
  induction fuel as [|fuel IH]; intros i coords Hfuel.
  - simpl. replace (Z.to_nat _) with 0%nat by lia. done.
  - cbn [Draw_lines]. case_decide as Hcond.
    + rewrite array_get_to_size_t by lia.
      unfold array_get. rewrite decide_True by lia.
      destruct (lookup_lt_is_Some_2 (_consoleLines c)
                  (Z.to_nat (Z.of_nat i + _consoleScrollPos c)) ltac:(lia)) as [line Hline].
      rewrite Hline. simpl.
      replace (Z.of_nat i + 1) with (Z.of_nat (S i)) by lia.
      rewrite IH by lia. simpl. f_equal.
      rewrite (drop_S _ line _ Hline).
      replace (Z.to_nat (Z.of_nat (S i) + _consoleScrollPos c))
        with (S (Z.to_nat (Z.of_nat i + _consoleScrollPos c))) by lia.
      replace (Z.to_nat (Z.min (Z.of_nat (length (_consoleLines c)))
                           (to_size_t (GetNumVisibleLines c)) - Z.of_nat i))
        with (S (Z.to_nat (Z.min (Z.of_nat (length (_consoleLines c)))
                           (to_size_t (GetNumVisibleLines c)) - Z.of_nat (S i)))) by lia.
      done.
    + replace (Z.to_nat _) with 0%nat by lia. done.
Qed.

(** The loop is undefined as soon as one of the lines it gets to is outside
    the scrollback. *)
Lemma Draw_lines_outside fmt col c (k : nat) : ∀ fuel (i : nat) coords,
  in_machine_range c →
  (i ≤ k)%nat → Z.of_nat k < drawn_count c →
  ¬ (0 ≤ Z.of_nat k + _consoleScrollPos c < numLines c) →
  drawn_count c - Z.of_nat i ≤ Z.of_nat fuel →
  Draw_lines fuel (Z.of_nat i) coords fmt col (GetNumVisibleLines c) c = None.
Proof.
  intros fuel i coords (Hpos32 & Hn32) Hik Hk Hout. revert i coords Hik.
  unfold drawn_count, numLines in *.
  induction fuel as [|fuel IH]; intros i coords Hik Hfuel; [lia|].
  cbn [Draw_lines]. rewrite decide_True by lia.
  rewrite array_get_to_size_t by lia.
  destruct (array_get (_consoleLines c) (Z.of_nat i + _consoleScrollPos c))
    as [line|] eqn:Hline; simpl; [|done].
  assert (i ≠ k).
  { intros ->. apply Hout. unfold array_get in Hline.
    case_decide; [|done]. apply lookup_lt_Some in Hline. lia. }
  replace (Z.of_nat i + 1) with (Z.of_nat (S i)) by lia.
  by rewrite IH by lia.
Qed.

Lemma Draw_is_Some c :
  _isOpen c = true →
  is_Some (Draw c) ↔
  is_Some (Draw_lines (length (_consoleLines c)) 0
             (ScreenCoordsXY_add (_consoleTopLeft c)
                {| x := CONSOLE_EDGE_PADDING; y := CONSOLE_EDGE_PADDING |})
             (if decide (NOT_TRANSLUCENT (ThemeGetColour WindowClassConsole 1) = COLOUR_BLACK)
              then "{BLACK}"%string else EmptyString)
             (if negb LocalisationService_UseTrueTypeFont
              then Z.lor (NOT_TRANSLUCENT (ThemeGetColour WindowClassConsole 1))
                     COLOUR_FLAG_OUTLINE
              else NOT_TRANSLUCENT (ThemeGetColour WindowClassConsole 1))
             (GetNumVisibleLines c) c).
Proof.
  intros Hopen. unfold Draw. rewrite Hopen. cbn [negb].
  destruct (Draw_lines _ _ _ _ _ _ _); cbn; split; intros [? ?]; by eauto.
Qed.

(** X16.  [Draw] stays inside the scrollback exactly when the console is
    closed, or prints no line, or its offset is not negative and the lines
    it prints end at or before the newest line; in every other state it
    reads [_consoleLines] out of range. *)
Theorem Draw_defined_iff c :
  in_machine_range c →
  is_Some (Draw c) ↔
    _isOpen c = false ∨ drawn_count c = 0 ∨
    (0 ≤ _consoleScrollPos c ∧ _consoleScrollPos c + drawn_count c ≤ numLines c).
Proof.
  intros Hrange.
  destruct (_isOpen c) eqn:Hopen; [|split; [by left|]; intros _; unfold Draw; by rewrite Hopen].
  rewrite (Draw_is_Some c Hopen).
  pose proof (to_size_t_nonneg (GetNumVisibleLines c)) as Hv.
  assert (Hcount : 0 ≤ drawn_count c ≤ numLines c)
    by (unfold drawn_count, numLines; lia).
  destruct (decide (drawn_count c = 0 ∨
                    (0 ≤ _consoleScrollPos c ∧
                     _consoleScrollPos c + drawn_count c ≤ numLines c))) as [Hsafe|Hunsafe].
  - split; [intros _; by right|]. intros _.
    destruct Hsafe as [Hzero|[Hpos Hfit]].
    + destruct (length (_consoleLines c)) eqn:Hlen; cbn [Draw_lines]; [by eexists|].
      rewrite decide_False; [by eexists|].
      unfold drawn_count, numLines in Hzero. rewrite Hlen in *. lia.
    + rewrite (Draw_lines_inside _ _ c _ 0%nat) by (done || unfold numLines in *; lia).
      by eexists.
  - split; [|intros [?|?]; [done|tauto]].
    intros [calls Hcalls]. exfalso.
    assert (∃ k : nat, Z.of_nat k < drawn_count c ∧
                       ¬ (0 ≤ Z.of_nat k + _consoleScrollPos c < numLines c))
      as (k & Hk & Hout).
    { destruct (decide (0 ≤ _consoleScrollPos c)).
      - exists (Z.to_nat (drawn_count c - 1)). lia.
      - exists 0%nat. lia. }
    rewrite (Draw_lines_outside _ _ c k _ 0%nat) in Hcalls
      by (done || lia || unfold numLines in *; lia).
    done.
Qed.

Lemma drawn_strings_line_calls fmt col texts : ∀ coords,
  drawn_strings (line_calls coords fmt col texts) =
    imap (λ k text, (y coords + Z.of_nat k * InGameConsoleGetLineHeight, fmt +:+ text)) texts.
Proof.
  induction texts as [|text texts IH]; intros coords; [done|].
  cbn [line_calls]. unfold drawn_strings in *. cbn [omap list_omap]. cbn [y].
  rewrite IH. cbn [imap]. f_equal; [f_equal; lia|].
  apply imap_ext. intros k t _. cbn. f_equal. lia.
Qed.

(** X17.  On an open console whose offset is in range and whose visible
    line count is not negative, [Draw] is defined and prints exactly the
    scrollback lines from the offset on, as many as are visible (all of
    them if fewer), in order, one line height apart from the top padding
    down. *)
Theorem Draw_prints_window c :
  in_machine_range c →
  _isOpen c = true →
  scroll_in_range c →
  0 ≤ GetNumVisibleLines c →
  ∃ calls,
    Draw c = Some calls ∧
    drawn_strings calls =
      imap (λ k line,
              (y (_consoleTopLeft c) + CONSOLE_EDGE_PADDING
                 + Z.of_nat k * InGameConsoleGetLineHeight,
               colourFormatStr_of +:+ line))
        (take (Z.to_nat (drawn_count c))
           (drop (Z.to_nat (_consoleScrollPos c)) (_consoleLines c))).
Proof.
  intros Hrange Hopen Hin Hv. unfold scroll_in_range in Hin.
  assert (Hsmall : to_size_t (GetNumVisibleLines c) ≤ GetNumVisibleLines c).
  { unfold to_size_t. apply Z.mod_le; lia. }
  pose proof (to_size_t_nonneg (GetNumVisibleLines c)) as Hv'.
  assert (Hfit : _consoleScrollPos c + drawn_count c ≤ numLines c)
    by (unfold drawn_count; lia).
  unfold Draw. rewrite Hopen. cbn [negb].
  rewrite (Draw_lines_inside _ _ c _ 0%nat)
    by (done || lia || unfold drawn_count, numLines in *; lia).
  cbn [mbind option_bind]. eexists. split; [done|].
  unfold drawn_strings. rewrite !omap_app. cbn [omap list_omap Invalidate app].
  fold (drawn_strings (line_calls
          (ScreenCoordsXY_add (_consoleTopLeft c)
             {| x := CONSOLE_EDGE_PADDING; y := CONSOLE_EDGE_PADDING |})
          (if decide (NOT_TRANSLUCENT (ThemeGetColour WindowClassConsole 1) = COLOUR_BLACK)
           then "{BLACK}"%string else EmptyString)
          (if negb LocalisationService_UseTrueTypeFont
           then Z.lor (NOT_TRANSLUCENT (ThemeGetColour WindowClassConsole 1))
                  COLOUR_FLAG_OUTLINE
           else NOT_TRANSLUCENT (ThemeGetColour WindowClassConsole 1))
          (take (Z.to_nat (drawn_count c - Z.of_nat 0))
             (drop (Z.to_nat (Z.of_nat 0 + _consoleScrollPos c)) (_consoleLines c))))).
  rewrite drawn_strings_line_calls.
  replace (omap _ (if decide _ then _ else _)) with (@nil (Z * string))
    by (by case_decide).
  rewrite app_nil_r. cbn [y ScreenCoordsXY_add].
  replace (drawn_count c - Z.of_nat 0) with (drawn_count c) by lia.
  replace (Z.of_nat 0 + _consoleScrollPos c) with (_consoleScrollPos c) by lia.
  done.
Qed.

End DrawMore.

(** * Examples, witnesses and counterexamples *)

Section GameExamples.
#[local] Existing Instance gameLimits.
#[local] Existing Instance gameHost.

(** The start-up console shows the banner, the hint, an empty line and the
    prompt, and has room for 29 lines. *)
Example started_lines :
  _consoleLines started =
    ["OpenRCT2";
     "Type 'help' for a list of available commands. Type 'hide' to hide the console.";
     ""; "> "] ∧
  consoleHeight started = 322 ∧
  GetNumVisibleLines started = 29.
Proof. by vm_compute. Qed.

(** The scenario of C2: height 322, line height 10, fixed chrome 4. *)
Example GetNumVisibleLines_scenario :
  GetNumVisibleLines started = 29 ∧ visibleLineCount_spec 322 10 = 29.
Proof. by vm_compute. Qed.

(** C2, counterexample.  With console height 322 and a line height of 400
    the code returns −1, and with console height 10 and line height 10 it
    returns −1 as well; the clamped floor of the specification is 0 in both
    cases. *)
Lemma GetNumVisibleLines_not_clamped :
  (@GetNumVisibleLines tallFontHost started = -1 ∧
   visibleLineCount_spec 322 400 = 0) ∧
  (GetNumVisibleLines
     (set_consoleBottomRight {| x := 640; y := 10 |} InGameConsole_init) = -1 ∧
   visibleLineCount_spec 10 10 = 0).
Proof. by vm_compute. Qed.

(** Witness of C5 (amended): 104 lines, 29 of them visible. *)
Lemma Scroll_all_in_range_witness :
  let c := WriteLine (blank_lines 99) ColourWindow2 started in
  _consoleScrollPos (Scroll 28 c) =
    clamp (wrap_int32 (_consoleScrollPos c - 28)) 0 (numLines c - GetNumVisibleLines c) ∧
  scroll_in_range (Scroll_all [28; -28; 1000; -5] c).
Proof.
  intros c. apply (proj1 (@Scroll_all_in_range gameHost 28 [-28; 1000; -5] c)).
  by_compute.
Defined.

(** C5, counterexample.  The console is scrolled while it has no height yet
    (no line is visible, so the bound is the line count, 4); [Update] then
    gives it its height of 322 and 29 visible lines.  The offset is 4, above
    the bound max(0, 4 − 29) = 0, and since all lines fit no sequence of
    [Scroll] calls changes it. *)
Lemma Scroll_does_not_restore_range :
  let c := Update 640 None (Scroll (-4) (InGameConsole_ctor InGameConsole_init)) in
  _consoleScrollPos c = 4 ∧
  numLines c = 4 ∧
  GetNumVisibleLines c = 29 ∧
  ∀ deltas,
    _consoleScrollPos (Scroll_all deltas c) = 4 ∧
    ¬ scroll_in_range (Scroll_all deltas c).
Proof.
  intros c. split; [by vm_compute|]. split; [by vm_compute|].
  split; [by vm_compute|]. intros deltas.
  rewrite Scroll_all_fits by (vm_compute; discriminate).
  split; [by vm_compute|].
  unfold scroll_in_range. vm_compute. intros [_ Hle]. by apply Hle.
Qed.

(** The subtraction of [Scroll] is that of [int32_t]: scrolling by the
    smallest [int32_t] from offset 47 overflows and ends at the oldest
    line, not at the newest. *)
Example Scroll_INT32_MIN :
  let c := Scroll 28 (ScrollToEnd (WriteLine (blank_lines 99) ColourWindow2 started)) in
  _consoleScrollPos c = 47 ∧
  _consoleScrollPos (Scroll (- 2 ^ 31) c) = 0 ∧
  _consoleScrollPos (ScrollToEnd c) = 75.
Proof. by vm_compute. Qed.

Example Scroll_all_offsets :
  let c := WriteLine (blank_lines 99) ColourWindow2 started in
  numLines c = 104 ∧
  _consoleScrollPos <$> [Scroll_all [28] c; Scroll_all [28; -28] c;
                         Scroll_all [28; -28; 1000] c; Scroll_all [28; -28; 1000; -5] c;
                         Scroll_all [28; -28; 1000; -5; -1000] c] =
    [0; 28; 0; 5; 75].
Proof. by vm_compute. Qed.

Example WriteLine_all_overflow :
  let c' := WriteLine_all [(hello_world, ColourWindow2); (blank_lines 300, ColourWindow2);
                           (hello_world, ColourWindow2)] InGameConsole_init in
  length (_consoleLines c') = 300%nat ∧
  drop 297 (_consoleLines c') = [""; "hello"; "world"].
Proof. by vm_compute. Qed.

(** C6, counterexample.  The scrollback is filled to its cap and scrolled
    while the console has no height yet; [Update] then gives it its height
    of 322.  The next write overflows the cap, one line is dropped from
    the front, and the offset is still 300, above the bound
    300 − 29 = 271: no clamp took place. *)
Lemma WriteLine_does_not_reclamp :
  let c := Update 640 None
             (Scroll (-300)
                (WriteLine (blank_lines 299) ColourWindow2
                   (InGameConsole_ctor InGameConsole_init))) in
  (length (_consoleLines c ++ appended_lines "x" ColourWindow2) > CONSOLE_MAX_LINES)%nat ∧
  numLines (WriteLine "x" ColourWindow2 c) = 300 ∧
  GetNumVisibleLines (WriteLine "x" ColourWindow2 c) = 29 ∧
  _consoleScrollPos (WriteLine "x" ColourWindow2 c) = 300 ∧
  ¬ scroll_in_range (WriteLine "x" ColourWindow2 c).
Proof.
  intros c. split; [vm_compute; lia|]. split; [by vm_compute|].
  split; [by vm_compute|]. split; [by vm_compute|].
  unfold scroll_in_range. vm_compute. intros [_ Hle]. by apply Hle.
Qed.

(** Witness of C6 (amended). *)
Lemma WriteLine_keeps_scroll_offset_witness :
  let c := Scroll 28 (ScrollToEnd (WriteLine (blank_lines 400) ColourWindow2 started)) in
  _consoleScrollPos (WriteLine hello_world ColourWindow2 c) = _consoleScrollPos c ∧
  numLines c ≤ numLines (WriteLine hello_world ColourWindow2 c) ∧
  scroll_in_range (WriteLine hello_world ColourWindow2 c).
Proof.
  intros c.
  destruct (@WriteLine_keeps_scroll_offset gameLimits gameHost hello_world ColourWindow2 c)
    as (Hpos & _ & Hrange).
  split; [exact Hpos|]. apply Hrange.
  - unfold scroll_in_range. vm_compute. split; discriminate.
  - vm_compute. lia.
Defined.

(** C9, the failing input.  Written with the colour of errors, the two
    segments are prefixed with the text of the default colour token, as
    they are with any other colour; written with the default colour they
    carry no prefix. *)
Theorem WriteLine_colour_prefix :
  _consoleLines (WriteLine hello_world ColourRed InGameConsole_init) =
    ["{WINDOW_COLOUR_2}hello"; "{WINDOW_COLOUR_2}world"] ∧
  WriteLine hello_world ColourRed InGameConsole_init =
    WriteLine hello_world ColourYellow InGameConsole_init ∧
  _consoleLines (WriteLine hello_world ColourWindow2 InGameConsole_init) =
    ["hello"; "world"].
Proof. by vm_compute. Qed.

Example WriteLine_empty_and_trailing_newline :
  _consoleLines (WriteLine "" ColourWindow2 InGameConsole_init) = [""] ∧
  _consoleLines (WriteLine (hello_world +:+ String newline "") ColourWindow2
                   InGameConsole_init) = ["hello"; "world"; ""].
Proof. by vm_compute. Qed.

(** Witness of C8 (amended). *)
Lemma LineExecute_empty_line_witness :
  let c := Scroll 28 (ScrollToEnd (WriteLine (blank_lines 99) ColourWindow2 started)) in
  Input LineExecute c = Some (ScrollToEnd c) ∧
  ScrollToEnd c =
    set_consoleScrollPos
      (if decide (GetNumVisibleLines c = 0) then 0
       else Z.max 0 (numLines c - GetNumVisibleLines c)) c.
Proof. apply (@LineExecute_empty_line gameLimits gameHost). by_compute. Defined.

(** C8, counterexample.  The console holds 104 lines and is scrolled 28
    lines up from the end (offset 47); Enter on the empty edit line moves
    the offset to 75. *)
Lemma LineExecute_empty_line_scrolls :
  let c := Scroll 28 (ScrollToEnd (WriteLine (blank_lines 99) ColourWindow2 started)) in
  hd NUL (_consoleCurrentLine c) = NUL ∧
  _consoleScrollPos c = 47 ∧
  _consoleScrollPos <$> Input LineExecute c = Some 75 ∧
  Input LineExecute c ≠ Some c.
Proof.
  intros c. split; [by vm_compute|]. split; [by vm_compute|].
  split; [by vm_compute|]. intros Heq.
  apply (f_equal (fmap _consoleScrollPos)) in Heq. vm_compute in Heq. discriminate.
Qed.

(** Witness of C1. *)
Lemma LineExecute_steps_witness :
  let c := type_line "help" started in
  let line := _consoleCurrentLine c in
  ∃ c1 c2 before promptLine,
    HistoryAdd line c = Some c1 ∧
    history_entries c1 = keep_last CONSOLE_HISTORY_SIZE (history_entries c ++ [line]) ∧
    _consoleLines c = before ++ [promptLine] ∧
    back_append (c_str line) c1 = Some c2 ∧
    _consoleLines c2 = before ++ [promptLine +:+ c_str line] ∧
    let c3 := Execute (c_str line) c2 in
    let c4 := WritePrompt c3 in
    _consoleLines c4 = keep_last CONSOLE_MAX_LINES (_consoleLines c3 ++ ["> "]) ∧
    let c5 := RefreshCaret 0 (ClearInput c4) in
    c_str (_consoleCurrentLine c5) = EmptyString ∧
    Input LineExecute c = Some (ScrollToEnd c5) ∧
    _consoleLines (ScrollToEnd c5) = _consoleLines c4 ∧
    _consoleScrollPos (ScrollToEnd c5) =
      if decide (GetNumVisibleLines c3 = 0) then 0
      else Z.max 0 (Z.of_nat (length (_consoleLines c4)) - GetNumVisibleLines c3).
Proof.
  apply (@LineExecute_steps gameLimits gameHost).
  - by_compute.
  - history_wf_by_compute.
  - by_compute.
  - by_compute.
Defined.

Example LineExecute_help :
  let c' := run_command "help" started in
  _consoleLines c' =
    ["OpenRCT2";
     "Type 'help' for a list of available commands. Type 'hide' to hide the console.";
     ""; "> help"; "ran help"; "> "] ∧
  c_str <$> history_entries c' = ["help"] ∧
  c_str (_consoleCurrentLine c') = "" ∧
  _consoleScrollPos c' = 0.
Proof. by vm_compute. Qed.

(** With 40 lines of output the prompt is the last of 46 lines and the
    offset 46 − 29 = 17 shows it. *)
Example LineExecute_scrolls_to_prompt :
  let c' := run_command "help" (WriteLine (blank_lines 39) ColourWindow2 started) in
  length (_consoleLines c') = 46%nat ∧
  last (_consoleLines c') = Some "> " ∧
  _consoleScrollPos c' = 17.
Proof. by vm_compute. Qed.

(** Witness of C7: three commands in the history, two steps back and two
    forward. *)
Lemma HistoryPrevious_then_HistoryNext_witness :
  let c := run_command "c" (run_command "b" (run_command "a" started)) in
  ∃ c1 c2,
    Input_repeat 2 HistoryPrevious c = Some c1 ∧
    _consoleHistoryIndex c1 = _consoleHistoryCount c - Z.of_nat 2 ∧
    Input_repeat 2 HistoryNext c1 = Some c2 ∧
    fresh_line c2 ∧
    history_entries c2 = history_entries c.
Proof.
  apply (@HistoryPrevious_then_HistoryNext gameLimits gameHost).
  - history_wf_by_compute.
  - by vm_compute; eauto.
  - by_compute.
  - left. lia.
  - by_compute.
Defined.

Example HistoryPrevious_recalls :
  let c := run_command "c" (run_command "b" (run_command "a" started)) in
  (λ c, (c_str (_consoleCurrentLine c), _consoleHistoryIndex c)) <$>
    Input_repeat 2 HistoryPrevious c = Some ("b", 1) ∧
  (λ c, (c_str (_consoleCurrentLine c), _consoleHistoryIndex c)) <$>
    (Input_repeat 2 HistoryPrevious c ≫= Input_repeat 2 HistoryNext) = Some ("", 3).
Proof. by vm_compute. Qed.

End GameExamples.

Section SmallRing.
#[local] Existing Instance smallLimits.

(** Witness of C4: capacity 3 and the commands a, b, c, d. *)
Lemma HistoryAdd_all_keeps_most_recent_witness :
  let srcs := buffer_of 8 <$> ["a"; "b"; "c"] in
  let src := buffer_of 8 "d" in
  let c := InGameConsole_init in
  ∃ c', HistoryAdd_all (srcs ++ [src]) c = Some c' ∧
        history_entries c' =
          drop (length (history_entries c ++ srcs ++ [src]) - CONSOLE_HISTORY_SIZE)
            (history_entries c ++ srcs ++ [src]) ∧
        (length (history_entries c') ≤ CONSOLE_HISTORY_SIZE)%nat ∧
        _consoleHistoryCount c' = Z.of_nat (length (history_entries c')) ∧
        _consoleHistoryIndex c' = Z.of_nat (length (history_entries c')).
Proof.
  apply (@HistoryAdd_all_keeps_most_recent smallLimits).
  - history_wf_by_compute.
  - by apply (bool_decide_unpack _); vm_compute.
Defined.

(** The scenario of C4: the ring holds b, c, d and the cursor is 3. *)
Example HistoryAdd_all_abcd :
  (λ c, (c_str <$> history_entries c, _consoleHistoryCount c, _consoleHistoryIndex c)) <$>
    HistoryAdd_all (buffer_of 8 <$> ["a"; "b"; "c"; "d"]) InGameConsole_init =
  Some (["b"; "c"; "d"], 3, 3).
Proof. by vm_compute. Qed.

End SmallRing.

(** * Witnesses of the further properties *)

Section MoreExamples.
#[local] Existing Instance gameLimits.
#[local] Existing Instance gameHost.
#[local] Existing Instance sampleDrawHost.

(** The interpreter of the sample host only writes to the scrollback. *)
Lemma gameHost_keeps_input : Execute_keeps_input.
Proof.
  intros s c. change (Execute s c) with (WriteLine ("ran " +:+ s) ColourWindow2 c).
  by rewrite (WriteLine_set_lines _ _ c).
Qed.

(** Witness of X2. *)
Lemma ScrollToEnd_shows_newest_line_witness :
  let c := WriteLine (blank_lines 99) ColourWindow2 started in
  let pos := _consoleScrollPos (ScrollToEnd c) in
  0 ≤ pos ≤ numLines c - 1 ∧
  numLines c - 1 < pos + GetNumVisibleLines c ∧
  pos + Z.min (GetNumVisibleLines c) (numLines c) = numLines c.
Proof. apply (@ScrollToEnd_shows_newest_line gameHost); by_compute. Defined.

(** Witness of X3: 104 lines, 29 of them visible, offset 47. *)
Lemma Scroll_reaches_both_ends_witness :
  let c := Scroll 28 (ScrollToEnd (WriteLine (blank_lines 99) ColourWindow2 started)) in
  (∀ delta, _consoleScrollPos c ≤ delta < 2 ^ 31 →
     _consoleScrollPos (Scroll delta c) = 0) ∧
  (∀ delta, delta ≤ _consoleScrollPos c - (numLines c - GetNumVisibleLines c) →
     _consoleScrollPos c - delta < 2 ^ 31 →
     Scroll delta c = ScrollToEnd c).
Proof.
  apply (@Scroll_reaches_both_ends gameHost).
  - by_compute.
  - by_compute.
  - by_compute.
Defined.

(** Without a visible line the second half of X3 fails: on the console as
    constructed (height 0, four lines) scrolling forward ends at offset 4
    and [ScrollToEnd] at offset 0. *)
Example Scroll_forward_at_height_0 :
  let c := InGameConsole_ctor InGameConsole_init in
  GetNumVisibleLines c = 0 ∧
  _consoleScrollPos (Scroll (-4) c) = 4 ∧
  _consoleScrollPos (ScrollToEnd c) = 0.
Proof. by vm_compute. Qed.

(** Witness of X4: 104 lines, 29 of them visible, offset 75. *)
Lemma ScrollPrevious_then_ScrollNext_witness :
  let c := ScrollToEnd (WriteLine (blank_lines 99) ColourWindow2 started) in
  Input ScrollPrevious c ≫= Input ScrollNext = Some c.
Proof.
  apply (@ScrollPrevious_then_ScrollNext gameHost gameLimits).
  - by_compute.
  - by_compute.
  - range_by_compute.
Defined.

(** With an offset past the end the round trip of X4 fails: the page
    forward clamps.  The console is scrolled to 90 while it has no height
    and then sized; a page back gives 62 and the page forward 75. *)
Example ScrollPrevious_then_ScrollNext_past_end :
  let c := Update 640 None
             (Scroll (-90)
                (WriteLine (blank_lines 99) ColourWindow2
                   (InGameConsole_ctor InGameConsole_init))) in
  _consoleScrollPos c = 90 ∧
  _consoleScrollPos <$> Input ScrollPrevious c = Some 62 ∧
  _consoleScrollPos <$> (Input ScrollPrevious c ≫= Input ScrollNext) = Some 75.
Proof. by vm_compute. Qed.

(** Witness of X5. *)
Lemma Clear_resets_scroll_witness :
  let c := ScrollToEnd (WriteLine (blank_lines 99) ColourWindow2 started) in
  _consoleLines (Clear c) = [] ∧
  _consoleScrollPos (Clear c) = 0 ∧
  ∀ delta, Scroll delta (Clear c) = Clear c.
Proof. apply (@Clear_resets_scroll gameHost). by_compute. Defined.

(** Witness of X8. *)
Lemma WritePrompt_newest_line_witness :
  let c := WriteLine (blank_lines 400) ColourWindow2 started in
  last (_consoleLines (WritePrompt c)) = Some "> "%string ∧
  (∃ dropped, _consoleLines c ++ ["> "%string] = dropped ++ _consoleLines (WritePrompt c)) ∧
  WritePrompt c = set_consoleLines (_consoleLines (WritePrompt c)) c.
Proof. apply (@WritePrompt_newest_line gameLimits). vm_compute. lia. Defined.

(** Witness of X11. *)
Lemma act_all_defined_witness :
  ∃ c', act_all [TypeText "help"; Press LineExecute; Press HistoryPrevious;
                 Press HistoryPrevious; Press HistoryNext; Press ScrollPrevious;
                 TypeText "abc"; Press LineClear; Press LineExecute] started = Some c' ∧
        console_inv c'.
Proof.
  apply (@act_all_defined gameLimits gameHost).
  - vm_compute. lia.
  - exact gameHost_keeps_input.
  - console_inv_by_compute.
Defined.

(** Witness of X12. *)
Lemma HistoryPrevious_recalls_kth_newest_witness :
  let c := run_command "c" (run_command "b" (run_command "a" started)) in
  ∃ c', Input_repeat 2 HistoryPrevious c = Some c' ∧
        history_entries c !! (length (history_entries c) - 2)%nat
          = Some (_consoleCurrentLine c') ∧
        _consoleHistoryIndex c' = _consoleHistoryCount c - Z.of_nat 2 ∧
        history_entries c' = history_entries c ∧
        _consoleLines c' = _consoleLines c.
Proof.
  apply (@HistoryPrevious_recalls_kth_newest gameLimits gameHost).
  - console_inv_by_compute.
  - by_compute.
  - lia.
  - by_compute.
Defined.

(** Witness of X13. *)
Lemma LineExecute_then_HistoryPrevious_witness :
  let c := type_line "help" started in
  ∃ c1 c2,
    Input LineExecute c = Some c1 ∧
    fresh_line c1 ∧
    Input HistoryPrevious c1 = Some c2 ∧
    _consoleCurrentLine c2 = _consoleCurrentLine c.
Proof.
  apply (@LineExecute_then_HistoryPrevious gameLimits gameHost).
  - console_inv_by_compute.
  - exact gameHost_keeps_input.
  - by_compute.
Defined.

(** Witness of X14: the console before it is opened. *)
Lemma History_events_without_session_witness :
  let c := InGameConsole_ctor InGameConsole_init in
  Input HistoryPrevious c = None ∧
  (Input HistoryNext c = None ↔ _consoleHistoryIndex c < _consoleHistoryCount c - 1).
Proof. apply (@History_events_without_session gameLimits gameHost). by_compute. Defined.

(** Witness of X15. *)
Lemma Update_repeat_blinks_witness :
  let c' := Update_repeat 5 640 None started in
  _consoleCaretTicks c' = (_consoleCaretTicks started + Z.of_nat 5) `mod` 30 ∧
  0 ≤ _consoleCaretTicks c' < 30 ∧
  _consoleCaretTicks (Update_repeat (5 + 30) 640 None started) = _consoleCaretTicks c' ∧
  consoleHeight c' = 322 ∧
  _consoleLines c' = _consoleLines started ∧
  _consoleScrollPos c' = _consoleScrollPos started ∧
  history_entries c' = history_entries started ∧
  _consoleCurrentLine c' = _consoleCurrentLine started.
Proof. apply (Update_repeat_blinks 4 640 None started). by_compute. Defined.

(** Witness of X16. *)
Lemma Draw_defined_iff_witness :
  let c := ScrollToEnd (WriteLine (blank_lines 99) ColourWindow2 started) in
  is_Some (Draw c) ↔
    _isOpen c = false ∨ drawn_count c = 0 ∨
    (0 ≤ _consoleScrollPos c ∧ _consoleScrollPos c + drawn_count c ≤ numLines c).
Proof.
  apply (@Draw_defined_iff gameHost sampleDrawHost).
  unfold in_machine_range. range_by_compute.
Defined.

(** Witness of X17. *)
Lemma Draw_prints_window_witness :
  let c := ScrollToEnd (WriteLine hello_world ColourWindow2 started) in
  ∃ calls,
    Draw c = Some calls ∧
    drawn_strings calls =
      imap (λ k line,
              (y (_consoleTopLeft c) + CONSOLE_EDGE_PADDING
                 + Z.of_nat k * InGameConsoleGetLineHeight,
               colourFormatStr_of +:+ line))
        (take (Z.to_nat (drawn_count c))
           (drop (Z.to_nat (_consoleScrollPos c)) (_consoleLines c))).
Proof.
  apply (@Draw_prints_window gameHost sampleDrawHost).
  - unfold in_machine_range. range_by_compute.
  - by_compute.
  - unfold scroll_in_range. range_by_compute.
  - by_compute.
Defined.

(** What the drawing of X17's witness prints: six lines, ten pixels apart. *)
Example Draw_prints_window_lines :
  drawn_strings <$> Draw (ScrollToEnd (WriteLine hello_world ColourWindow2 started)) =
    Some [(4, "OpenRCT2");
          (14, "Type 'help' for a list of available commands. Type 'hide' to hide the console.");
          (24, ""); (34, "> "); (44, "hello"); (54, "world")].
Proof. by vm_compute. Qed.

(** Scrolled before the console has its height, then sized and opened
    without scrolling to the end: the offset 4 is outside the four lines and
    [Draw] reads out of range. *)
Example Draw_out_of_range :
  let c := set_isOpen true
             (Update 640 None (Scroll (-4) (InGameConsole_ctor InGameConsole_init))) in
  _consoleScrollPos c = 4 ∧ numLines c = 4 ∧ Draw c = None.
Proof. by vm_compute. Qed.

(** Witness of X18. *)
Lemma Input_keeps_scroll_in_range_witness :
  scroll_in_range (run_command "help" (WriteLine (blank_lines 99) ColourWindow2 started)).
Proof.
  apply (@Input_keeps_scroll_in_range gameLimits gameHost LineExecute
           (type_line "help" (WriteLine (blank_lines 99) ColourWindow2 started))).
  - unfold scroll_in_range. range_by_compute.
  - by vm_compute.
Defined.

(** Witness of X19. *)
Lemma startup_establishes_invariants_witness :
  let c := Open (Update 640 None (InGameConsole_ctor InGameConsole_init)) in
  console_inv c ∧ scroll_in_range c ∧ fresh_line c ∧ _isOpen c = true ∧
  last (_consoleLines c) = Some "> "%string.
Proof.
  apply (@startup_establishes_invariants gameLimits gameHost); vm_compute; lia.
Defined.

End MoreExamples.

Section HideExample.
#[local] Existing Instance gameLimits.
#[local] Existing Instance hideHost.

(** The condition of X13 on the interpreter is needed: [hide] closes the
    console, the text-input session is gone, and the HistoryPrevious that
    follows stores through the null session. *)
Example hide_then_HistoryPrevious :
  let c := type_line "hide" started in
  hd NUL (_consoleCurrentLine c) ≠ NUL ∧
  _isOpen <$> Input LineExecute c = Some false ∧
  _consoleTextInputSession <$> Input LineExecute c = Some None ∧
  Input LineExecute c ≫= Input HistoryPrevious = None.
Proof. by vm_compute. Qed.

End HideExample.
